(** * Oracle card deck generator: a shallow embedding of [generate_deck.py]

    The development follows the script top to bottom: Python values and
    strings, the random source, the title pool builder, the field selector,
    the card assembler, the box renderer, the configuration check, the
    driver and the rich-document export.  Definitions carry the names of the
    Python functions they embed. *)

From Stdlib Require Import String Ascii.
From Stdlib Require Import List ZArith NArith Arith Lia Bool Permutation.
From Stdlib Require Decimal.
Import ListNotations.

Set Implicit Arguments.

(** ** Python strings

    A Python [str] is a sequence of Unicode code points and [len] counts code
    points, so a string is a list of code points here and [len] is [length].
    Literals are written as in the source and decoded from the UTF-8 bytes of
    this file. *)

Definition pystr := list N.

Fixpoint utf8_decode (s : string) (acc : N) (pending : nat) : pystr :=
  match s with
  | EmptyString => []
  | String a rest =>
      let b := N_of_ascii a in
      match pending with
      | O =>
          if (b <? 128)%N then b :: utf8_decode rest 0%N 0
          else if (b <? 224)%N then utf8_decode rest (b - 192)%N 1
          else if (b <? 240)%N then utf8_decode rest (b - 224)%N 2
          else utf8_decode rest (b - 240)%N 3
      | S k =>
          let acc' := (acc * 64 + (b - 128))%N in
          match k with
          | O => acc' :: utf8_decode rest 0%N 0
          | S _ => utf8_decode rest acc' k
          end
      end
  end.

Definition u (s : string) : pystr := utf8_decode s 0%N 0.

Definition pystr_eq_dec : forall a b : pystr, {a = b} + {a <> b} :=
  list_eq_dec N.eq_dec.

Definition pystr_eqb (a b : pystr) : bool :=
  if pystr_eq_dec a b then true else false.

(** [str(n)] for an [int]: the decimal numeral, with a minus sign. *)
Fixpoint uint_digits (d : Decimal.uint) : pystr :=
  match d with
  | Decimal.Nil => []
  | Decimal.D0 r => 48%N :: uint_digits r
  | Decimal.D1 r => 49%N :: uint_digits r
  | Decimal.D2 r => 50%N :: uint_digits r
  | Decimal.D3 r => 51%N :: uint_digits r
  | Decimal.D4 r => 52%N :: uint_digits r
  | Decimal.D5 r => 53%N :: uint_digits r
  | Decimal.D6 r => 54%N :: uint_digits r
  | Decimal.D7 r => 55%N :: uint_digits r
  | Decimal.D8 r => 56%N :: uint_digits r
  | Decimal.D9 r => 57%N :: uint_digits r
  end.

Definition str_of_int (z : Z) : pystr :=
  match Z.to_int z with
  | Decimal.Pos d => uint_digits d
  | Decimal.Neg d => 45%N :: uint_digits d
  end.

Definition newline : pystr := [10%N].

(** [sep.join(parts)]. *)
Fixpoint join (sep : pystr) (parts : list pystr) : pystr :=
  match parts with
  | [] => []
  | [p] => p
  | p :: rest => p ++ sep ++ join sep rest
  end.

(** Iterating over a [str] yields its characters as one-character strings. *)
Definition chars (s : pystr) : list pystr := map (fun ch => [ch]) s.

(** ** Cards

    [generate_card] returns a dict whose ["number"] is an [int], whose
    ["title"] is a [str] and whose other values are a [str] or a list of
    [str].  The record keeps the two typed entries apart from the slot
    entries, which stay a key-value list read with [card_get]. *)

Inductive slot : Type :=
| SStr (s : pystr)
| SList (l : list pystr).

Definition slot_truthy (v : slot) : bool :=
  match v with
  | SStr [] => false
  | SStr _ => true
  | SList [] => false
  | SList _ => true
  end.

Fixpoint dict_get {V : Type} (d : list (pystr * V)) (key : pystr) : option V :=
  match d with
  | [] => None
  | (k, v) :: rest => if pystr_eqb k key then Some v else dict_get rest key
  end.

Record card : Type := mkCard {
  number : option Z;
  title : option pystr;
  slots : list (pystr * slot)
}.

Definition card_get (c : card) (key : pystr) : option slot :=
  dict_get (slots c) key.

(** ** Box renderer *)

Section Renderer.

(** [str(value)] of a list is Python's built-in [repr]; the renderer
    reaches it only when the ["reaction"] entry holds a list. *)
Variable repr_list : list pystr -> pystr.

Definition str_of_slot (v : slot) : pystr :=
  match v with
  | SStr s => s
  | SList l => repr_list l
  end.

Definition fields : list (pystr * pystr * pystr) :=
  [ (u"symbol", u"Symbole", u""); (u"verbs", u"Verbes", u", ");
    (u"lieu", u"Lieu", u""); (u"personnage", u"Personnage", u"");
    (u"objet", u"Objet", u""); (u"emotions", u"Émotions", u", ");
    (u"appearance", u"Apparence", u""); (u"motivation", u"Motivation", u"");
    (u"traits", u"Traits", u", "); (u"secret", u"Secret", u"");
    (u"relation", u"Relation", u"") ].

Definition header_line (c : card) : pystr :=
  u"Carte "
    ++ match number c with Some n => str_of_int n | None => u"None" end
    ++ u" — "
    ++ match title c with Some t => t | None => [] end.

Definition field_line (c : card) (f : pystr * pystr * pystr) : list pystr :=
  let '(key, label, separator) := f in
  match card_get c key with
  | Some value =>
      if slot_truthy value then
        match value with
        | SList l => [label ++ u" : " ++ join separator l]
        | SStr s => [label ++ u" : " ++ s]
        end
      else []
  | None => []
  end.

Definition reaction_line (c : card) : list pystr :=
  match card_get c (u"reaction") with
  | Some value =>
      if slot_truthy value
      then [u"Réaction (amical/hostile) : " ++ str_of_slot value]
      else []
  | None => []
  end.

Definition borders_line (c : card) : list pystr :=
  match card_get c (u"borders") with
  | Some value =>
      if slot_truthy value then
        [u"Thèmes : "
           ++ join (u", ") match value with
                           | SStr s => chars s
                           | SList l => l
                           end]
      else []
  | None => []
  end.

Definition content_lines (c : card) : list pystr :=
  [header_line c]
    ++ flat_map (field_line c) fields
    ++ reaction_line c
    ++ borders_line c.

Definition max_len (lines : list pystr) : nat :=
  list_max (map (@length N) lines).

Definition wrap_line (width : nat) (line : pystr) : pystr :=
  let padding := repeat 32%N (width - length line) in
  u"*" ++ line ++ padding ++ u" *".

Definition boxed_lines (lines : list pystr) : list pystr :=
  let box_width := max_len lines + 4 in
  let top_bottom_line := repeat 42%N box_width in
  [top_bottom_line] ++ map (wrap_line (max_len lines)) lines
    ++ [top_bottom_line].

Definition format_card_as_text (c : card) : pystr :=
  let lines := content_lines c in
  match lines with
  | [] => []
  | _ => join newline (boxed_lines lines) ++ newline
  end.

End Renderer.

(** ** Exceptions and the random source

    Python's [random] module is outside the repository.  Its generator is an
    infinite tape of raw draws; each call of [randbelow] or [random] reads one
    cell.  A computation takes the tape and either returns a value with the
    rest of the tape or raises. *)

Inductive exn : Type :=
| TypeError
| KeyError
| IndexError
| AttributeError
| EOFError
| FileNotFoundError (msg : pystr)
| ValueError (msg : pystr).

Inductive result (A : Type) : Type :=
| Ok (a : A)
| Raise (e : exn).

Arguments Ok {A} a.
Arguments Raise {A} e.

Definition rng := nat -> N.

Definition advance (g : rng) : rng := fun i => g (S i).

Definition M (A : Type) : Type := rng -> result (A * rng).

Definition ret {A : Type} (a : A) : M A := fun g => Ok (a, g).

Definition raise {A : Type} (e : exn) : M A := fun _ => Raise e.

Definition bind {A B : Type} (m : M A) (k : A -> M B) : M B :=
  fun g =>
    match m g with
    | Ok (a, g') => k a g'
    | Raise e => Raise e
    end.

Declare Scope rand_scope.
Delimit Scope rand_scope with rand.
Notation "x <- m ;; k" := (bind m (fun x => k))
  (at level 100, m at next level, right associativity) : rand_scope.
Open Scope rand_scope.

(** [random._randbelow(n)]: an integer in [range(n)]. *)
Definition randbelow (n : nat) : M nat :=
  fun g => Ok (N.to_nat (g 0 mod N.of_nat n), advance g).

(** [random.random()]: the numerator of a fraction over [2^53]. *)
Definition random_bits : Z := 2 ^ 53.

Definition random_random : M Z :=
  fun g => Ok (Z.modulo (Z.of_N (g 0%nat)) random_bits, advance g).

Section RandomLibrary.

Variable A : Type.

(** [random.choice(seq)]. *)
Definition random_choice (seq : list A) : M A :=
  match seq with
  | [] => raise IndexError
  | _ =>
      j <- randbelow (length seq) ;;
      match nth_error seq j with
      | Some x => ret x
      | None => raise IndexError
      end
  end.

(** [[random.choice(seq) for _ in range(count)]]. *)
Fixpoint choice_loop (seq : list A) (count : nat) : M (list A) :=
  match count with
  | O => ret []
  | S count' =>
      x <- random_choice seq ;;
      rest <- choice_loop seq count' ;;
      ret (x :: rest)
  end.

(** [x[i] = v] on a list. *)
Fixpoint list_set (i : nat) (v : A) (x : list A) : list A :=
  match x, i with
  | [], _ => []
  | _ :: rest, O => v :: rest
  | a :: rest, S i' => a :: list_set i' v rest
  end.

(** [x[i], x[j] = x[j], x[i]]. *)
Definition swap (i j : nat) (x : list A) : list A :=
  match nth_error x i, nth_error x j with
  | Some xi, Some xj => list_set j xi (list_set i xj x)
  | _, _ => x
  end.

(** [random.shuffle(x)]:
    [for i in reversed(range(1, len(x))): j = randbelow(i + 1); swap]. *)
Fixpoint shuffle_loop (i : nat) (x : list A) : M (list A) :=
  match i with
  | O => ret x
  | S i' =>
      j <- randbelow (S i) ;;
      shuffle_loop i' (swap i j x)
  end.

Definition random_shuffle (x : list A) : M (list A) :=
  shuffle_loop (length x - 1) x.

(** [random.sample(population, k)], the pool form of the library:
    [j = randbelow(n - i); result[i] = pool[j]; pool[j] = pool[n - i - 1]].
    The library's other form (rejection on a set of chosen positions, used
    for large populations) draws [k] distinct positions as well. *)
Fixpoint sample_loop (k : nat) (pool : list A) : M (list A) :=
  match k with
  | O => ret []
  | S k' =>
      j <- randbelow (length pool) ;;
      match nth_error pool j, nth_error pool (length pool - 1) with
      | Some x, Some z =>
          rest <- sample_loop k' (removelast (list_set j z pool)) ;;
          ret (x :: rest)
      | _, _ => raise IndexError
      end
  end.

Definition random_sample (population : list A) (k : nat) : M (list A) :=
  if length population <? k
  then raise (ValueError (u"Sample larger than population or is negative"))
  else sample_loop k population.

(** [itertools.accumulate(weights)]. *)
Fixpoint accumulate_from (acc : Z) (weights : list Z) : list Z :=
  match weights with
  | [] => []
  | w :: rest => (acc + w)%Z :: accumulate_from (acc + w)%Z rest
  end.

Definition accumulate (weights : list Z) : list Z :=
  accumulate_from 0%Z weights.

(** [bisect(cum_weights, random() * total, 0, hi)]: the insertion point to
    the right of the draw among the first [hi] cumulative weights, which
    are in non-decreasing order when no weight is negative.  The draw is
    [r / 2^53], compared exactly. *)
Fixpoint bisect (cum_weights : list Z) (r total : Z) (hi : nat) : nat :=
  match hi, cum_weights with
  | S hi', c :: rest =>
      if (r * total <? c * random_bits)%Z then 0
      else S (bisect rest r total hi')
  | _, _ => 0
  end.

Fixpoint choices_loop (population : list A) (cum_weights : list Z)
    (total : Z) (k : nat) : M (list A) :=
  match k with
  | O => ret []
  | S k' =>
      r <- random_random ;;
      match nth_error population
              (bisect cum_weights r total (length population - 1)) with
      | Some x =>
          rest <- choices_loop population cum_weights total k' ;;
          ret (x :: rest)
      | None => raise IndexError
      end
  end.

(** [random.choices(population, weights=weights, k=k)]. *)
Definition random_choices (population : list A) (weights : list Z)
    (k : nat) : M (list A) :=
  let cum_weights := accumulate weights in
  if negb (length cum_weights =? length population)
  then raise (ValueError
                (u"The number of weights does not match the population"))
  else
    match cum_weights with
    | [] => raise IndexError
    | _ =>
        let total := last cum_weights 0%Z in
        if (total <=? 0)%Z
        then raise (ValueError (u"Total of weights must be greater than zero"))
        else choices_loop population cum_weights total k
    end.

End RandomLibrary.

(** ** Title pool builder *)

(** [pool[:n]] for an [int] [n] of either sign. *)
Definition slice_to {A : Type} (pool : list A) (n : Z) : list A :=
  if (0 <=? n)%Z then firstn (Z.to_nat n) pool
  else firstn (length pool - Z.to_nat (- n)) pool.

Definition sum (counts : list Z) : Z := fold_right Z.add 0%Z counts.

(** A [title_distribution] is the dict's [items()] in insertion order. *)
Definition build_title_pool (title_distribution : list (pystr * Z))
    (card_count : Z) : M (list pystr) :=
  let items := title_distribution in
  let counts := map snd items in
  let total := sum counts in
  if (total >=? card_count)%Z then
    let pool :=
      flat_map (fun '(title, count) => repeat title (Z.to_nat count)) items in
    pool <- random_shuffle pool ;;
    ret (slice_to pool card_count)
  else
    let titles := map fst items in
    let weights := map snd items in
    random_choices titles weights (Z.to_nat card_count).

(** ** Configuration

    [json.load] returns a dict.  The model keeps the top-level values the
    generator reads: [null], booleans, integers, arrays of strings (the
    pools) and objects of integers (the title distribution).  A dict is its
    key-value list, read with [dict_get]. *)

Inductive entry : Type :=
| ENull
| EBool (b : bool)
| ENum (z : Z)
| EList (l : list pystr)
| EDict (d : list (pystr * Z)).

Definition config := list (pystr * entry).

(** [bool(value)]. *)
Definition entry_truthy (e : entry) : bool :=
  match e with
  | ENull => false
  | EBool b => b
  | ENum z => negb (z =? 0)%Z
  | EList l => negb (length l =? 0)
  | EDict d => negb (length d =? 0)
  end.

(** [len(value)]. *)
Definition entry_len (e : entry) : result nat :=
  match e with
  | EList l => Ok (length l)
  | EDict d => Ok (length d)
  | _ => Raise TypeError
  end.

(** ** Field selector *)

Definition pick_multiple (source_list : list pystr) (count : nat)
    : M (list pystr) :=
  match source_list with
  | [] => ret []
  | _ =>
      if length source_list <? count
      then choice_loop source_list count
      else random_sample source_list count
  end.

(** A truthy value that is not a list makes [random.choice] and
    [pick_multiple] raise: a number or [True] has no [len]; a dict has no
    integer key for [random.choice] and is no sequence for
    [random.sample]. *)
Definition _get_random_field_value (cfg : config) (field_key : pystr)
    (count : nat) : M slot :=
  let source_list := dict_get cfg field_key in
  let empty := if count =? 1 then SStr [] else SList [] in
  match source_list with
  | None => ret empty
  | Some e =>
      if negb (entry_truthy e) then ret empty
      else
        match e with
        | EList l =>
            if count =? 1
            then (x <- random_choice l ;; ret (SStr x))
            else (xs <- pick_multiple l count ;; ret (SList xs))
        | EDict d =>
            if (count =? 1) || (length d <? count)
            then raise KeyError
            else raise TypeError
        | _ => raise TypeError
        end
  end.

(** ** Card assembler *)

(** [min(12, len(cfg.get("borders", [])) or 0)]. *)
Definition borders_count (cfg : config) : result nat :=
  match dict_get cfg (u"borders") with
  | None => Ok (Nat.min 12 0)
  | Some e =>
      match entry_len e with
      | Ok n => Ok (Nat.min 12 n)
      | Raise err => Raise err
      end
  end.

Definition lift {A : Type} (r : result A) : M A :=
  match r with
  | Ok a => ret a
  | Raise e => raise e
  end.

Definition slot_kept (kv : pystr * slot) : bool := slot_truthy (snd kv).

Definition generate_card (index : Z) (title : pystr) (cfg : config) : M card :=
  symbol <- _get_random_field_value cfg (u"symbols") 1 ;;
  verbs <- _get_random_field_value cfg (u"table_verbes") 3 ;;
  lieu <- _get_random_field_value cfg (u"lieux") 1 ;;
  personnage <- _get_random_field_value cfg (u"personnages") 1 ;;
  objet <- _get_random_field_value cfg (u"objets") 1 ;;
  emotions <- _get_random_field_value cfg (u"emotions") 2 ;;
  appearance <- _get_random_field_value cfg (u"appearances") 1 ;;
  motivation <- _get_random_field_value cfg (u"motivations") 1 ;;
  traits <- _get_random_field_value cfg (u"traits") 3 ;;
  secret <- _get_random_field_value cfg (u"sombres_secrets") 1 ;;
  reaction <- _get_random_field_value cfg (u"reactions_amical_hostile") 1 ;;
  relation <- _get_random_field_value cfg (u"relations_pj_pnj") 1 ;;
  count <- lift (borders_count cfg) ;;
  borders <- _get_random_field_value cfg (u"borders") count ;;
  ret {| number := if (index =? 0)%Z then None else Some index;
         title := match title with [] => None | _ => Some title end;
         slots :=
           filter slot_kept
             [ (u"symbol", symbol); (u"verbs", verbs); (u"lieu", lieu);
               (u"personnage", personnage); (u"objet", objet);
               (u"emotions", emotions); (u"appearance", appearance);
               (u"motivation", motivation); (u"traits", traits);
               (u"secret", secret); (u"reaction", reaction);
               (u"relation", relation); (u"borders", borders) ] |}.

(** ** Configuration check *)

Definition required_keys : list pystr :=
  [ u"title_distribution"; u"symbols"; u"table_verbes"; u"lieux";
    u"personnages"; u"objets"; u"motivations"; u"traits";
    u"sombres_secrets"; u"reactions_amical_hostile"; u"relations_pj_pnj" ].

Definition key_missing (cfg : config) (key : pystr) : bool :=
  match dict_get cfg key with
  | None => true
  | Some _ => false
  end.

Definition key_empty (cfg : config) (key : pystr) : bool :=
  match dict_get cfg key with
  | None => false
  | Some e => negb (entry_truthy e)
  end.

Definition missing_keys (cfg : config) : list pystr :=
  filter (key_missing cfg) required_keys.

Definition empty_keys (cfg : config) : list pystr :=
  filter (key_empty cfg) required_keys.

Definition error_msg (missing empty : list pystr) : pystr :=
  u"[ERREUR FATALE] La configuration JSON est incomplète ou vide :" ++ newline
    ++ match missing with
       | [] => []
       | _ => u"- Clés **manquantes** : " ++ join (u", ") missing ++ newline
       end
    ++ match empty with
       | [] => []
       | _ =>
           u"- Clés **vides** (doivent contenir des éléments) : "
             ++ join (u", ") empty ++ newline
       end
    ++ u"Veuillez vérifier votre fichier deck_config.json.".

Definition check_critical_lists (cfg : config) : result unit :=
  match missing_keys cfg, empty_keys cfg with
  | [], [] => Ok tt
  | missing, empty => Raise (ValueError (error_msg missing empty))
  end.

(** ** Driver

    The operator's answers are read line by line; each line is given as what
    [input(...).strip()] and [int(...)] make of it.  [main] is followed up
    to the end of the generation loop: [Completed] says that the [try] block
    and the loop have finished, and keeps what was printed so far, the cards
    and the body [save_as_txt] builds from them.  The output stage after the
    loop (reading the [output] entry, writing the files, the DOCX export) is
    not part of [main] here and can still raise in the program; file names
    and the messages of that stage are left out. *)

Inductive answer : Type :=
| Blank
| Number (z : Z)
| NotANumber.

Definition prompt_text (default_count : Z) : pystr :=
  u"Combien de cartes générer ? (Défaut: " ++ str_of_int default_count
    ++ u") : ".

Fixpoint _prompt_for_card_count (default_count : Z) (stdin : list answer)
    : result Z * list pystr :=
  match stdin with
  | [] => (Raise EOFError, [prompt_text default_count])
  | Blank :: _ => (Ok default_count, [prompt_text default_count])
  | Number count :: rest =>
      if (count <=? 0)%Z then
        let (r, printed) := _prompt_for_card_count default_count rest in
        (r, prompt_text default_count
              :: u"[ATTENTION] Le nombre doit être supérieur à zéro."
              :: printed)
      else (Ok count, [prompt_text default_count])
  | NotANumber :: rest =>
      let (r, printed) := _prompt_for_card_count default_count rest in
      (r, prompt_text default_count
            :: u"[ATTENTION] Entrée invalide. Veuillez entrer un nombre entier positif."
            :: printed)
  end.

(** [int(cfg.get("card_count", 100))]. *)
Definition default_card_count (cfg : config) : result Z :=
  match dict_get cfg (u"card_count") with
  | None => Ok 100%Z
  | Some (ENum z) => Ok z
  | Some (EBool b) => Ok (if b then 1%Z else 0%Z)
  | Some _ => Raise TypeError
  end.

(** [cfg["title_distribution"]] handed to [build_title_pool], which calls
    [.items()] on it. *)
Definition title_distribution_items (cfg : config)
    : result (list (pystr * Z)) :=
  match dict_get cfg (u"title_distribution") with
  | None => Raise KeyError
  | Some (EDict d) => Ok d
  | Some _ => Raise AttributeError
  end.

Inductive outcome : Type :=
| Exited (code : Z) (printed : list pystr)
| Uncaught (e : exn) (printed : list pystr)
| Completed (printed : list pystr) (cards : list card) (txt : pystr).

Definition launch_failure (msg : pystr) : pystr :=
  newline ++ u"[ERREUR] Impossible de lancer le générateur :" ++ newline ++ msg.

(** [except (FileNotFoundError, ValueError) as e: print(...); sys.exit(1)];
    any other exception leaves the [try] block uncaught. *)
Definition handle (e : exn) (printed : list pystr) : outcome :=
  match e with
  | FileNotFoundError msg | ValueError msg =>
      Exited 1 (printed ++ [launch_failure msg])
  | _ => Uncaught e printed
  end.

(** [for i in range(1, card_count + 1): cards.append(generate_card(i,
    title_pool[i - 1], cfg))], as a loop over the indices. *)
Fixpoint generate_cards (indices : list nat) (title_pool : list pystr)
    (cfg : config) : M (list card) :=
  match indices with
  | [] => ret []
  | i :: rest =>
      match nth_error title_pool (i - 1) with
      | None => raise IndexError
      | Some title =>
          c <- generate_card (Z.of_nat i) title cfg ;;
          cards <- generate_cards rest title_pool cfg ;;
          ret (c :: cards)
      end
  end.

Definition deck_title : pystr :=
  u"LE TAROT DES ROYAUMES OUBLIÉS — DECK GÉNÉRÉ".

Section Driver.

Variable repr_list : list pystr -> pystr.

(** The text [save_as_txt] writes. *)
Definition save_as_txt (cards : list card) : pystr :=
  join newline
    ([deck_title ++ newline; repeat 61%N (length deck_title) ++ newline]
       ++ map (format_card_as_text repr_list) cards).

Definition main (loaded : result config) (stdin : list answer) (g : rng)
    : outcome :=
  match loaded with
  | Raise e => handle e []
  | Ok cfg =>
      match check_critical_lists cfg with
      | Raise e => handle e []
      | Ok _ =>
          match default_card_count cfg with
          | Raise e => handle e []
          | Ok default_count =>
              match _prompt_for_card_count default_count stdin with
              | (Raise e, printed) => handle e printed
              | (Ok card_count, printed) =>
                  match title_distribution_items cfg with
                  | Raise e => handle e printed
                  | Ok items =>
                      match build_title_pool items card_count g with
                      | Raise e => handle e printed
                      | Ok (title_pool, g1) =>
                          match generate_cards
                                  (seq 1 (Z.to_nat card_count))
                                  title_pool cfg g1 with
                          | Raise e => Uncaught e printed
                          | Ok (cards, _) =>
                              Completed printed cards (save_as_txt cards)
                          end
                      end
                  end
              end
          end
      end
  end.

End Driver.

(** ** Rich-document export

    The [docx] library and the file system are outside the repository.  A
    document is the list of what [save_as_docx] adds to it; an image path is
    a base directory and a file name, and [is_file] tells which paths exist.
    The picture width ([Inches(0.52)]), the saved file and the message that
    names it are left out. *)

Inductive image_dir : Type :=
| SymbolsDir
| WorkingDir.

Definition image_path : Type := (image_dir * pystr)%type.

Inductive doc_item : Type :=
| Heading (text : pystr) (level : nat)
| Paragraph (text : pystr)
| Picture (path : image_path).

Inductive docx_outcome : Type :=
| NotGenerated (message : pystr)
| Saved (doc : list doc_item).

Section Docx.

Variable repr_list : list pystr -> pystr.
Variable is_file : image_path -> bool.

(** The candidates of [_find_symbol_image], in the order they are tried. *)
Definition image_candidates (symbol : pystr) : list image_path :=
  flat_map
    (fun base =>
       map (fun ext => (base, symbol ++ ext))
         [u".jpg"; u".png"; u".jpeg"; u".webp"])
    [SymbolsDir; WorkingDir].

Definition _find_symbol_image (symbol : pystr) : option image_path :=
  find is_file (image_candidates symbol).

(** [if card.get(key): doc.add_paragraph(f"{label} : {card[key]}")]. *)
Definition docx_plain (c : card) (key label : pystr) : list doc_item :=
  match card_get c key with
  | Some value =>
      if slot_truthy value
      then [Paragraph (label ++ u" : " ++ str_of_slot repr_list value)]
      else []
  | None => []
  end.

(** [if card.get(key):
       doc.add_paragraph(f"{label} : {', '.join(card[key])}")]. *)
Definition docx_joined (c : card) (key label : pystr) : list doc_item :=
  match card_get c key with
  | Some value =>
      if slot_truthy value then
        [Paragraph
           (label ++ u" : "
              ++ join (u", ") match value with
                              | SStr s => chars s
                              | SList l => l
                              end)]
      else []
  | None => []
  end.

(** The symbol line: a picture when an image file is found, else the
    plain line, also when the card has no symbol. *)
Definition docx_symbol (c : card) : list doc_item :=
  let symbol :=
    match card_get c (u"symbol") with
    | Some value => value
    | None => SStr []
    end in
  let img_path :=
    if slot_truthy symbol
    then _find_symbol_image (str_of_slot repr_list symbol)
    else None in
  match img_path with
  | Some path => [Picture path]
  | None => [Paragraph (u"Symbole : " ++ str_of_slot repr_list symbol)]
  end.

(** What one iteration of the loop over the cards adds; [card['number']]
    and [card['title']] raise [KeyError] on a missing key. *)
Definition docx_card (c : card) : result (list doc_item) :=
  match number c, title c with
  | Some n, Some t =>
      Ok ([Heading (str_of_int n ++ u" :  " ++ t) 2]
            ++ docx_symbol c
            ++ docx_joined c (u"verbs") (u"Action(s) centrale(s)")
            ++ docx_plain c (u"lieu") (u"Lieu")
            ++ docx_plain c (u"personnage") (u"Personnage")
            ++ docx_plain c (u"objet") (u"Objet")
            ++ docx_plain c (u"motivation") (u"Motivation")
            ++ docx_joined c (u"traits") (u"Caractère")
            ++ docx_plain c (u"secret") (u"Secret")
            ++ docx_plain c (u"relation") (u"Relation")
            ++ docx_plain c (u"reaction") (u"Réaction (amical/hostile)")
            ++ docx_joined c (u"borders") (u"Thèmes dominants")
            ++ [Paragraph []])
  | _, _ => Raise KeyError
  end.

Fixpoint docx_cards (cards : list card) : result (list doc_item) :=
  match cards with
  | [] => Ok []
  | c :: rest =>
      match docx_card c with
      | Raise e => Raise e
      | Ok items =>
          match docx_cards rest with
          | Raise e => Raise e
          | Ok more => Ok (items ++ more)
          end
      end
  end.

Definition save_as_docx (has_docx : bool) (cards : list card)
    : result docx_outcome :=
  if negb has_docx
  then Ok (NotGenerated
             (u"[INFO] python-docx n’est pas installé, DOCX non généré."))
  else
    match docx_cards cards with
    | Raise e => Raise e
    | Ok doc => Ok (Saved doc)
    end.

End Docx.

(** ** Definitions used by the statements *)

Unset Implicit Arguments.

(** A content line of a block without its leading [*] and its trailing
    space and [*]. *)
Definition strip_border (w : pystr) : pystr := removelast (removelast (tl w)).

(** The wrapped content lines of a card's block, between the two borders. *)
Definition wrapped_lines (repr_list : list pystr -> pystr) (c : card)
    : list pystr :=
  map (wrap_line (max_len (content_lines repr_list c)))
    (content_lines repr_list c).

Definition border_line (repr_list : list pystr -> pystr) (c : card) : pystr :=
  repeat 42%N (max_len (content_lines repr_list c) + 4).

(** No slot of the card holds a non-empty value. *)
Definition no_populated_slot (c : card) : Prop :=
  forall key v, card_get c key = Some v -> slot_truthy v = false.

(** A stand-in for [repr] of a list in closed examples: exact for printable
    strings without quotes or backslashes. *)
Definition repr_plain (l : list pystr) : pystr :=
  u"[" ++ join (u", ") (map (fun s => u"'" ++ s ++ u"'") l) ++ u"]".

(** A tape given by its first cells, then zeros. *)
Definition tape (cells : list N) : rng := fun i => nth i cells 0%N.

(** The element a draw [r] selects in [seq]. *)
Definition pick {A : Type} (seq : list A) (d : A) (r : N) : A :=
  nth (N.to_nat (r mod N.of_nat (length seq))) seq d.

(** The tape after [n] draws. *)
Definition drop (n : nat) (g : rng) : rng := fun i => g (n + i).

(** The pool keys [generate_card] reads. *)
Definition pool_keys : list pystr :=
  [ u"symbols"; u"table_verbes"; u"lieux"; u"personnages"; u"objets";
    u"emotions"; u"appearances"; u"motivations"; u"traits";
    u"sombres_secrets"; u"reactions_amical_hostile"; u"relations_pj_pnj";
    u"borders" ].

(** Every pool key of the configuration is absent or bound to an array. *)
Definition pools_are_lists (cfg : config) : Prop :=
  forall key,
    In key pool_keys ->
    dict_get cfg key = None \/ exists l, dict_get cfg key = Some (EList l).

(** A key occurs in a report. *)
Definition mentions (report key : pystr) : Prop :=
  exists pre post, report = pre ++ key ++ post.

(** A configuration holding exactly the keys the check requires. *)
Definition required_only_config : config :=
  [ (u"title_distribution", EDict [(u"Le Fou", 1%Z)]);
    (u"symbols", EList [u"Lune"; u"Soleil"]);
    (u"table_verbes", EList [u"chercher"; u"fuir"; u"trahir"; u"garder"]);
    (u"lieux", EList [u"Tour"]);
    (u"personnages", EList [u"Mage"]);
    (u"objets", EList [u"Anneau"]);
    (u"motivations", EList [u"Vengeance"]);
    (u"traits", EList [u"Brave"; u"Rusé"]);
    (u"sombres_secrets", EList [u"Parjure"]);
    (u"reactions_amical_hostile", EList [u"Amical"]);
    (u"relations_pj_pnj", EList [u"Rival"]) ].

(** The same with [motivations] left out and [objets] emptied. *)
Definition incomplete_config : config :=
  [ (u"title_distribution", EDict [(u"Le Fou", 1%Z)]);
    (u"symbols", EList [u"Lune"; u"Soleil"]);
    (u"table_verbes", EList [u"chercher"; u"fuir"; u"trahir"; u"garder"]);
    (u"lieux", EList [u"Tour"]);
    (u"personnages", EList [u"Mage"]);
    (u"objets", EList []);
    (u"traits", EList [u"Brave"; u"Rusé"]);
    (u"sombres_secrets", EList [u"Parjure"]);
    (u"reactions_amical_hostile", EList [u"Amical"]);
    (u"relations_pj_pnj", EList [u"Rival"]) ].

(** The required keys and a [borders] pool of one entry. *)
Definition single_border_config : config :=
  required_only_config ++ [(u"borders", EList [u"Feu"])].

(** The slot names of a card, in the order [generate_card] fills them;
    they are also the keys [format_card_as_text] reads. *)
Definition slot_names : list pystr :=
  [ u"symbol"; u"verbs"; u"lieu"; u"personnage"; u"objet"; u"emotions";
    u"appearance"; u"motivation"; u"traits"; u"secret"; u"reaction";
    u"relation"; u"borders" ].

(** The optional pools with the slot each one fills. *)
Definition optional_pools : list (pystr * pystr) :=
  [ (u"emotions", u"emotions"); (u"appearances", u"appearance");
    (u"borders", u"borders") ].

(** The card with one more entry in front of its slots: [card[key] = v] for
    a key other than ["number"] and ["title"], which the record keeps apart
    from the slots. *)
Definition with_slot (c : card) (key : pystr) (v : slot) : card :=
  {| number := number c; title := title c; slots := (key, v) :: slots c |}.



(** A configuration whose thirteen pools hold one entry each. *)
Definition singleton_config : config :=
  [ (u"title_distribution", EDict [(u"Le Fou", 1%Z)]);
    (u"symbols", EList [u"Lune"]);
    (u"table_verbes", EList [u"chercher"]);
    (u"lieux", EList [u"Tour"]);
    (u"personnages", EList [u"Mage"]);
    (u"objets", EList [u"Anneau"]);
    (u"emotions", EList [u"joie"]);
    (u"appearances", EList [u"pâle"]);
    (u"motivations", EList [u"Vengeance"]);
    (u"traits", EList [u"Brave"]);
    (u"sombres_secrets", EList [u"Parjure"]);
    (u"reactions_amical_hostile", EList [u"Amical"]);
    (u"relations_pj_pnj", EList [u"Rival"]);
    (u"borders", EList [u"Feu"]) ].

(** ** The box renderer: proofs *)

Section RendererFacts.

Variable repr_list : list pystr -> pystr.

Lemma content_lines_cons (c : card) :
  exists rest, content_lines repr_list c = header_line c :: rest.
Proof. unfold content_lines. simpl. eauto. Qed.

Lemma format_card_as_text_unfold (c : card) :
  format_card_as_text repr_list c
  = join newline
      ([border_line repr_list c] ++ wrapped_lines repr_list c
         ++ [border_line repr_list c])
      ++ newline.
Proof.
  unfold format_card_as_text, border_line, wrapped_lines.
  destruct (content_lines_cons c) as [rest ->]. reflexivity.
Qed.

Lemma length_le_max_len (lines : list pystr) (line : pystr) :
  In line lines -> length line <= max_len lines.
Proof.
  intros Hin. unfold max_len.
  assert (H : Forall (fun k => k <= list_max (map (@length N) lines))
                (map (@length N) lines))
    by (apply list_max_le; lia).
  rewrite Forall_forall in H. apply H. now apply in_map.
Qed.

Lemma strip_border_wrap_line (width : nat) (line : pystr) :
  strip_border (wrap_line width line)
  = line ++ repeat 32%N (width - length line).
Proof.
  unfold strip_border, wrap_line. cbn [u utf8_decode]. simpl tl.
  set (body := line ++ repeat 32%N (width - length line)).
  replace (line ++ repeat 32%N (width - length line) ++ [32%N; 42%N])
    with ((body ++ [32%N]) ++ [42%N])
    by (unfold body; rewrite <- !app_assoc; reflexivity).
  now rewrite !removelast_last.
Qed.

Lemma wrap_line_shape (width : nat) (line : pystr) :
  wrap_line width line = u"*" ++ strip_border (wrap_line width line) ++ u" *".
Proof.
  rewrite strip_border_wrap_line. unfold wrap_line.
  now rewrite <- !app_assoc.
Qed.

Lemma length_padded (width : nat) (line : pystr) :
  length line <= width ->
  length (line ++ repeat 32%N (width - length line)) = width.
Proof. intros H. rewrite length_app, repeat_length. lia. Qed.

Lemma length_wrap_line (width : nat) (line : pystr) :
  length line <= width -> length (wrap_line width line) = width + 3.
Proof.
  intros H. rewrite wrap_line_shape, strip_border_wrap_line.
  rewrite !length_app, repeat_length. simpl. lia.
Qed.

Lemma no_populated_slot_content (c : card) :
  no_populated_slot c -> content_lines repr_list c = [header_line c].
Proof.
  intros Hc. unfold content_lines.
  assert (Hf : forall f, field_line c f = []).
  { intros [[key label] sep]. unfold field_line.
    destruct (card_get c key) as [v|] eqn:E; [|reflexivity].
    now rewrite (Hc _ _ E). }
  assert (Hfm : forall l, flat_map (field_line c) l = []).
  { induction l as [|f l IH]; simpl; [reflexivity|]. now rewrite Hf, IH. }
  rewrite Hfm. unfold reaction_line, borders_line.
  destruct (card_get c (u"reaction")) as [v|] eqn:Er;
    [rewrite (Hc _ _ Er)|];
    (destruct (card_get c (u"borders")) as [w|] eqn:Eb;
     [rewrite (Hc _ _ Eb)|]); reflexivity.
Qed.

End RendererFacts.

Lemma wrapped_lines_In (repr_list : list pystr -> pystr) (c : card) (w : pystr) :
  In w (wrapped_lines repr_list c) ->
  exists line,
    In line (content_lines repr_list c)
    /\ w = wrap_line (max_len (content_lines repr_list c)) line.
Proof.
  unfold wrapped_lines. rewrite in_map_iff. intros [line [<- Hin]]. eauto.
Qed.

Lemma boxed_single_line (h : pystr) :
  join newline (boxed_lines [h]) ++ newline
  = repeat 42%N (length h + 4) ++ newline
      ++ (u"*" ++ h ++ u" *") ++ newline
      ++ repeat 42%N (length h + 4) ++ newline.
Proof.
  unfold boxed_lines, max_len, wrap_line. simpl map. simpl list_max.
  rewrite Nat.max_0_r, Nat.sub_diag. simpl repeat at 2.
  simpl join. unfold newline. change (u"*") with [42%N].
  repeat (rewrite <- app_assoc || rewrite <- app_comm_cons).
  reflexivity.
Qed.

(** C3 (as stated, refuted): the card holding only number 1 and title "X"
    has no populated slot, yet its rendering is the three-line frame around
    the header, not the empty string. *)
Lemma format_card_as_text_bare_card_is_framed :
  no_populated_slot (mkCard (Some 1%Z) (Some (u"X")) [])
  /\ format_card_as_text repr_plain (mkCard (Some 1%Z) (Some (u"X")) [])
     = u"***************" ++ newline
         ++ u"*Carte 1 — X *" ++ newline
         ++ u"***************" ++ newline
  /\ format_card_as_text repr_plain (mkCard (Some 1%Z) (Some (u"X")) []) <> [].
Proof.
  split; [|split].
  - intros key v H. discriminate H.
  - vm_compute. reflexivity.
  - vm_compute. discriminate.
Qed.

(** C3 (amended): the renderer never returns the empty string, because the
    header line is always produced; for a card with no populated slot it
    returns the frame around the header line alone. *)
Theorem format_card_as_text_never_empty :
  forall (repr_list : list pystr -> pystr) (c : card),
    0 < length (format_card_as_text repr_list c)
    /\ (no_populated_slot c ->
        format_card_as_text repr_list c
        = repeat 42%N (length (header_line c) + 4) ++ newline
            ++ (u"*" ++ header_line c ++ u" *") ++ newline
            ++ repeat 42%N (length (header_line c) + 4) ++ newline).
Proof.
  intros repr_list c. split.
  - rewrite format_card_as_text_unfold, length_app. simpl. lia.
  - intros Hc. unfold format_card_as_text.
    rewrite (no_populated_slot_content repr_list c Hc).
    apply boxed_single_line.
Qed.

(** C7: a card holding only number 1 and a title X renders as a frame whose
    only content line is "Carte 1 — X" and whose top and bottom borders are
    len("Carte 1 — X") + 4 stars. *)
Theorem format_card_as_text_title_only :
  forall (repr_list : list pystr -> pystr) (X : pystr),
    content_lines repr_list (mkCard (Some 1%Z) (Some X) [])
    = [u"Carte 1 — " ++ X]
    /\ format_card_as_text repr_list (mkCard (Some 1%Z) (Some X) [])
       = repeat 42%N (length (u"Carte 1 — " ++ X) + 4) ++ newline
           ++ (u"*" ++ (u"Carte 1 — " ++ X) ++ u" *") ++ newline
           ++ repeat 42%N (length (u"Carte 1 — " ++ X) + 4) ++ newline.
Proof.
  intros repr_list X.
  assert (Hc : no_populated_slot (mkCard (Some 1%Z) (Some X) []))
    by (intros key v H; discriminate H).
  assert (Hh : header_line (mkCard (Some 1%Z) (Some X) []) = u"Carte 1 — " ++ X)
    by reflexivity.
  split.
  - rewrite (no_populated_slot_content repr_list _ Hc), Hh. reflexivity.
  - destruct (format_card_as_text_never_empty repr_list
                (mkCard (Some 1%Z) (Some X) [])) as [_ H].
    rewrite (H Hc), Hh. reflexivity.
Qed.

(** C8: in every rendered block, each content line is [*], a body and [ *],
    and all bodies have the same length, the length of the longest display
    line: the right edges of the content lines align. *)
Theorem wrapped_lines_aligned :
  forall (repr_list : list pystr -> pystr) (c : card),
    format_card_as_text repr_list c
    = join newline
        ([border_line repr_list c] ++ wrapped_lines repr_list c
           ++ [border_line repr_list c])
        ++ newline
    /\ Forall
         (fun w =>
            w = u"*" ++ strip_border w ++ u" *"
            /\ length (strip_border w) = max_len (content_lines repr_list c))
         (wrapped_lines repr_list c)
    /\ (forall w1 w2,
           In w1 (wrapped_lines repr_list c) ->
           In w2 (wrapped_lines repr_list c) ->
           length (strip_border w1) = length (strip_border w2)).
Proof.
  intros repr_list c.
  assert (H : forall w, In w (wrapped_lines repr_list c) ->
                w = u"*" ++ strip_border w ++ u" *"
                /\ length (strip_border w) = max_len (content_lines repr_list c)).
  { intros w Hw. destruct (wrapped_lines_In _ _ _ Hw) as [line [Hin ->]].
    split; [apply wrap_line_shape|].
    rewrite strip_border_wrap_line. apply length_padded.
    now apply length_le_max_len. }
  split; [apply format_card_as_text_unfold|]. split.
  - apply Forall_forall. exact H.
  - intros w1 w2 H1 H2.
    destruct (H _ H1) as [_ ->]. destruct (H _ H2) as [_ ->]. reflexivity.
Qed.


(** ** The random library: proofs *)

Lemma bind_Ok {A B : Type} (m : M A) (k : A -> M B) (g g' : rng) (b : B) :
  bind m k g = Ok (b, g') ->
  exists a g1, m g = Ok (a, g1) /\ k a g1 = Ok (b, g').
Proof.
  unfold bind. destruct (m g) as [[a g1]|e]; [eauto|discriminate].
Qed.

Lemma randbelow_lt (n : nat) (g : rng) :
  0 < n -> N.to_nat (g 0 mod N.of_nat n) < n.
Proof.
  intros Hn.
  assert (H : (g 0%nat mod N.of_nat n < N.of_nat n)%N)
    by (apply N.mod_lt; lia).
  lia.
Qed.

Section RandomFacts.

Variable A : Type.

Lemma pick_In (seq : list A) (d : A) (r : N) :
  seq <> [] -> In (pick seq d r) seq.
Proof.
  intros Hne. unfold pick. apply nth_In.
  assert (0 < length seq) by (destruct seq; [congruence|simpl; lia]).
  assert (H' : (r mod N.of_nat (length seq) < N.of_nat (length seq))%N)
    by (apply N.mod_lt; lia).
  lia.
Qed.

Lemma random_choice_Ok (seq : list A) (d : A) (g : rng) :
  seq <> [] ->
  random_choice seq g = Ok (pick seq d (g 0), advance g).
Proof.
  intros Hne. unfold random_choice.
  destruct seq as [|a seq']; [congruence|].
  set (s := a :: seq'). unfold bind, randbelow.
  assert (Hlt : N.to_nat (g 0 mod N.of_nat (length s)) < length s)
    by (apply randbelow_lt; simpl; lia).
  destruct (nth_error s (N.to_nat (g 0 mod N.of_nat (length s)))) as [x|] eqn:E.
  - unfold ret, pick. now rewrite (nth_error_nth _ _ d E).
  - apply nth_error_None in E. lia.
Qed.

Lemma choice_loop_Ok (seq : list A) (d : A) (count : nat) :
  seq <> [] ->
  forall g,
    choice_loop seq count g
    = Ok (map (fun i => pick seq d (g i)) (List.seq 0 count), drop count g).
Proof.
  intros Hne. induction count as [|count IH]; intros g.
  - reflexivity.
  - cbn [choice_loop]. unfold bind at 1.
    rewrite (random_choice_Ok seq d g Hne).
    unfold bind. rewrite IH. unfold ret. cbn [List.seq map].
    rewrite <- seq_shift, map_map. reflexivity.
Qed.

Lemma list_set_length (i : nat) (v : A) (x : list A) :
  length (list_set i v x) = length x.
Proof.
  revert i. induction x as [|a x IH]; intros [|i]; simpl; auto.
Qed.

Lemma list_set_nth_error (i j : nat) (v : A) (x : list A) (a : A) :
  i < length x ->
  nth_error x j = Some a ->
  nth_error (list_set i v x) j = Some (if i =? j then v else a).
Proof.
  revert i j. induction x as [|b x IH]; intros i j Hi Hj.
  - simpl in Hi. lia.
  - destruct i as [|i], j as [|j]; simpl in *; auto.
    apply IH; [lia|assumption].
Qed.

Lemma list_set_Permutation (i : nat) (v a : A) (x : list A) :
  nth_error x i = Some a ->
  Permutation (v :: x) (a :: list_set i v x).
Proof.
  revert i. induction x as [|b x IH]; intros i Hi.
  - destruct i; discriminate.
  - destruct i as [|i]; simpl in *.
    + injection Hi as ->. apply perm_swap.
    + eapply perm_trans; [apply perm_swap|].
      eapply perm_trans; [apply perm_skip, (IH i Hi)|]. apply perm_swap.
Qed.

Lemma swap_Permutation (i j : nat) (x : list A) :
  Permutation (swap i j x) x.
Proof.
  unfold swap.
  destruct (nth_error x i) as [xi|] eqn:Ei; [|reflexivity].
  destruct (nth_error x j) as [xj|] eqn:Ej; [|reflexivity].
  assert (Hi : i < length x) by (apply nth_error_Some; congruence).
  assert (Hj : nth_error (list_set i xj x) j = Some xj).
  { rewrite (list_set_nth_error i j xj x xj Hi Ej).
    now destruct (i =? j). }
  pose proof (list_set_Permutation i xj xi x Ei) as H1.
  pose proof (list_set_Permutation j xi xj (list_set i xj x) Hj) as H2.
  apply Permutation_cons_inv with (a := xj).
  symmetry. eapply perm_trans; [exact H1|exact H2].
Qed.

Lemma shuffle_loop_Ok (i : nat) :
  forall (x : list A) (g : rng),
    exists y, shuffle_loop i x g = Ok (y, drop i g) /\ Permutation y x.
Proof.
  induction i as [|i IH]; intros x g.
  - exists x. split; reflexivity.
  - cbn [shuffle_loop]. unfold bind, randbelow.
    destruct (IH (swap (S i) (N.to_nat (g 0 mod N.of_nat (S (S i)))) x)
                (advance g)) as [y [Hy Hp]].
    exists y. split; [exact Hy|].
    rewrite Hp. apply swap_Permutation.
Qed.

Lemma random_shuffle_Ok (x : list A) (g : rng) :
  exists y,
    random_shuffle x g = Ok (y, drop (length x - 1) g) /\ Permutation y x.
Proof. apply shuffle_loop_Ok. Qed.

Lemma removelast_nth_error_last (l : list A) (z : A) :
  nth_error l (length l - 1) = Some z -> l = removelast l ++ [z].
Proof.
  intros H. destruct l as [|a l]; [discriminate|].
  rewrite (app_removelast_last z (l := a :: l)) at 1 by discriminate.
  f_equal. f_equal.
  assert (Hl : exists l' b, a :: l = l' ++ [b]).
  { exists (removelast (a :: l)), (last (a :: l) z).
    apply app_removelast_last. discriminate. }
  destruct Hl as [l' [b Hl]]. rewrite Hl in *.
  rewrite last_last.
  rewrite length_app in H. simpl in H.
  rewrite nth_error_app2 in H by lia.
  replace (length l' + 1 - 1 - length l') with 0 in H by lia.
  simpl in H. congruence.
Qed.

Lemma sample_step_Permutation (pool : list A) (j : nat) (x z : A) :
  nth_error pool j = Some x ->
  nth_error pool (length pool - 1) = Some z ->
  Permutation (x :: removelast (list_set j z pool)) pool
  /\ S (length (removelast (list_set j z pool))) = length pool.
Proof.
  intros Hj Hz.
  assert (Hjl : j < length pool) by (apply nth_error_Some; congruence).
  assert (Hlast : nth_error (list_set j z pool)
                    (length (list_set j z pool) - 1) = Some z).
  { rewrite list_set_length.
    rewrite (list_set_nth_error j _ z pool z Hjl Hz).
    now destruct (j =? length pool - 1). }
  pose proof (removelast_nth_error_last _ _ Hlast) as Hsplit.
  pose proof (list_set_Permutation j z x pool Hj) as Hp.
  split.
  - apply Permutation_cons_inv with (a := z).
    eapply perm_trans; [|symmetry; exact Hp].
    eapply perm_trans; [apply perm_swap|]. apply perm_skip.
    rewrite Hsplit at 2. apply Permutation_cons_append.
  - apply (f_equal (@length A)) in Hsplit.
    rewrite length_app, list_set_length in Hsplit. simpl in Hsplit. lia.
Qed.

Lemma sample_loop_Ok (k : nat) :
  forall (pool : list A) (g : rng),
    k <= length pool ->
    exists xs rest,
      sample_loop k pool g = Ok (xs, drop k g)
      /\ length xs = k
      /\ Permutation (xs ++ rest) pool.
Proof.
  induction k as [|k IH]; intros pool g Hk.
  - exists [], pool. repeat split; reflexivity.
  - cbn [sample_loop]. unfold bind at 1. unfold randbelow.
    assert (Hj : N.to_nat (g 0 mod N.of_nat (length pool)) < length pool)
      by (apply randbelow_lt; lia).
    set (j := N.to_nat (g 0 mod N.of_nat (length pool))) in *.
    destruct (nth_error pool j) as [x|] eqn:Ex;
      [|apply nth_error_None in Ex; lia].
    destruct (nth_error pool (length pool - 1)) as [z|] eqn:Ez;
      [|apply nth_error_None in Ez; lia].
    destruct (sample_step_Permutation pool j x z Ex Ez) as [Hp Hl].
    destruct (IH (removelast (list_set j z pool)) (advance g))
      as [xs [rest [Hs [Hlen Hperm]]]]; [lia|].
    exists (x :: xs), rest. unfold bind. rewrite Hs. unfold ret.
    repeat split.
    + simpl. now rewrite Hlen.
    + simpl. rewrite Hperm. exact Hp.
Qed.

Lemma random_sample_Ok (population : list A) (k : nat) (g : rng) :
  k <= length population ->
  exists xs rest,
    random_sample population k g = Ok (xs, drop k g)
    /\ length xs = k
    /\ Permutation (xs ++ rest) population.
Proof.
  intros Hk. unfold random_sample.
  destruct (length population <? k) eqn:E;
    [apply Nat.ltb_lt in E; lia|].
  now apply sample_loop_Ok.
Qed.

Lemma random_sample_all (population : list A) (g : rng) :
  exists xs,
    random_sample population (length population) g
    = Ok (xs, drop (length population) g)
    /\ Permutation xs population.
Proof.
  destruct (random_sample_Ok population (length population) g (le_n _))
    as [xs [rest [Hs [Hlen Hp]]]].
  exists xs. split; [exact Hs|].
  assert (Hr : rest = []).
  { apply Permutation_length in Hp. rewrite length_app in Hp.
    destruct rest; [reflexivity|simpl in Hp; lia]. }
  subst rest. now rewrite app_nil_r in Hp.
Qed.

End RandomFacts.

(** ** The field selector: proofs *)

Lemma map_tape_seq (cells : list N) :
  map (tape cells) (List.seq 0 (length cells)) = cells.
Proof.
  unfold tape. induction cells as [|a cells IH]; [reflexivity|].
  cbn [length List.seq map]. rewrite <- seq_shift, map_map.
  cbn [nth]. now rewrite IH.
Qed.

Lemma pick_of_index {A : Type} (seq : list A) (d : A) (n : nat) :
  n < length seq -> pick seq d (N.of_nat n) = nth n seq d.
Proof.
  intros Hn. unfold pick. rewrite N.mod_small by lia.
  now rewrite Nat2N.id.
Qed.

Lemma cells_for_target {A : Type} (seq : list A) (d : A) (target : list A) :
  Forall (fun x => In x seq) target ->
  exists cells,
    length cells = length target /\ map (pick seq d) cells = target.
Proof.
  induction 1 as [|x target Hx _ [cells [Hlen Hmap]]].
  - exists []. split; reflexivity.
  - destruct (In_nth seq x d Hx) as [n [Hn Hnth]].
    exists (N.of_nat n :: cells). split; simpl.
    + now rewrite Hlen.
    + now rewrite (pick_of_index seq d n Hn), Hnth, Hmap.
Qed.

Lemma pick_multiple_above (P : list pystr) (c : nat) (g : rng) :
  P <> [] -> length P < c ->
  pick_multiple P c g
  = Ok (map (fun i => pick P [] (g i)) (List.seq 0 c), drop c g).
Proof.
  intros Hne Hlt. unfold pick_multiple.
  destruct P as [|a P']; [congruence|].
  apply Nat.ltb_lt in Hlt. rewrite Hlt.
  apply choice_loop_Ok. discriminate.
Qed.

Lemma pick_multiple_within (P : list pystr) (c : nat) (g : rng) :
  P <> [] -> c <= length P ->
  exists xs rest,
    pick_multiple P c g = Ok (xs, drop c g)
    /\ length xs = c
    /\ Permutation (xs ++ rest) P.
Proof.
  intros Hne Hle. unfold pick_multiple.
  destruct P as [|a P']; [congruence|].
  destruct (length (a :: P') <? c) eqn:E;
    [apply Nat.ltb_lt in E; lia|].
  now apply random_sample_Ok.
Qed.

Lemma pick_multiple_whole (P : list pystr) (g : rng) :
  P <> [] ->
  exists xs,
    pick_multiple P (length P) g = Ok (xs, drop (length P) g)
    /\ Permutation xs P.
Proof.
  intros Hne.
  destruct (pick_multiple_within P (length P) g Hne (le_n _))
    as [xs [rest [Hs [Hlen Hp]]]].
  exists xs. split; [exact Hs|].
  assert (Hr : rest = []).
  { apply Permutation_length in Hp. rewrite length_app in Hp.
    destruct rest; [reflexivity|simpl in Hp; lia]. }
  subst rest. now rewrite app_nil_r in Hp.
Qed.

Lemma field_value_many (cfg : config) (key : pystr) (P : list pystr)
    (c : nat) (g : rng) :
  dict_get cfg key = Some (EList P) -> P <> [] -> c <> 1 ->
  _get_random_field_value cfg key c g
  = bind (pick_multiple P c) (fun xs => ret (SList xs)) g.
Proof.
  intros Hget Hne Hc. unfold _get_random_field_value. rewrite Hget.
  assert (Ht : entry_truthy (EList P) = true)
    by (destruct P; [congruence|reflexivity]).
  rewrite Ht. cbn [negb].
  apply Nat.eqb_neq in Hc. now rewrite Hc.
Qed.

Lemma field_value_one (cfg : config) (key : pystr) (P : list pystr)
    (g : rng) :
  dict_get cfg key = Some (EList P) -> P <> [] ->
  _get_random_field_value cfg key 1 g
  = Ok (SStr (pick P [] (g 0)), advance g).
Proof.
  intros Hget Hne. unfold _get_random_field_value. rewrite Hget.
  assert (Ht : entry_truthy (EList P) = true)
    by (destruct P; [congruence|reflexivity]).
  rewrite Ht. cbn [negb Nat.eqb]. unfold bind.
  now rewrite (random_choice_Ok _ P [] g Hne).
Qed.

Lemma field_value_absent (cfg : config) (key : pystr) (c : nat) (g : rng) :
  dict_get cfg key = None ->
  _get_random_field_value cfg key c g
  = Ok (if c =? 1 then SStr [] else SList [], g).
Proof.
  intros Hget. unfold _get_random_field_value. now rewrite Hget.
Qed.

(** C2 (as stated, refuted): with the pool ["a", "b"] and count 2 (count
    equal to the pool size) the list ["a", "a"] has two elements of the
    pool, but no tape makes the selector return it. *)
Lemma select_at_pool_size_never_repeats :
  (1 < 2 /\ length [u"a"; u"b"] <= 2)
  /\ Forall (fun x => In x [u"a"; u"b"]) [u"a"; u"a"]
  /\ (forall g g',
         _get_random_field_value [(u"pool", EList [u"a"; u"b"])] (u"pool") 2 g
         <> Ok (SList [u"a"; u"a"], g')).
Proof.
  split; [simpl; lia|]. split.
  - repeat constructor.
  - intros g g' H.
    rewrite (field_value_many [(u"pool", EList [u"a"; u"b"])] (u"pool")
               [u"a"; u"b"] 2 g eq_refl) in H;
      [|discriminate|discriminate].
    destruct (pick_multiple_whole [u"a"; u"b"] g) as [xs [Hs Hp]];
      [discriminate|].
    unfold bind in H. cbn [length] in Hs. rewrite Hs in H.
    unfold ret in H. injection H as Hxs _. subst xs.
    assert (Hin : In (u"b") [u"a"; u"a"])
      by (apply (Permutation_in _ (Permutation_sym Hp)); right; left;
          reflexivity).
    destruct Hin as [E|[E|[]]]; vm_compute in E; discriminate E.
Qed.

(** C2 (amended): for a non-empty pool P and a count c > 1, when c > len(P)
    the selector returns c elements, the i-th chosen by the i-th draw alone,
    uniformly in P (with replacement), and every list of c pool elements is
    returned for some tape; when c = len(P) it returns a permutation of P
    (without replacement). *)
Theorem select_by_pool_size :
  forall (cfg : config) (key : pystr) (P : list pystr) (c : nat) (g : rng),
    dict_get cfg key = Some (EList P) ->
    P <> [] ->
    1 < c ->
    length P <= c ->
    (length P < c ->
       _get_random_field_value cfg key c g
       = Ok (SList (map (fun i => pick P [] (g i)) (List.seq 0 c)), drop c g)
       /\ (forall target,
              length target = c ->
              Forall (fun x => In x P) target ->
              exists g0,
                _get_random_field_value cfg key c g0
                = Ok (SList target, drop c g0)))
    /\ (length P = c ->
          exists xs,
            _get_random_field_value cfg key c g = Ok (SList xs, drop c g)
            /\ Permutation xs P).
Proof.
  intros cfg key P c g Hget Hne Hc Hle.
  assert (Hc1 : c <> 1) by lia.
  split.
  - intros Hlt. split.
    + rewrite (field_value_many cfg key P c g Hget Hne Hc1). unfold bind.
      now rewrite (pick_multiple_above P c g Hne Hlt).
    + intros target Hlen Hall.
      destruct (cells_for_target P [] target Hall) as [cells [Hcl Hmap]].
      exists (tape cells).
      rewrite (field_value_many cfg key P c _ Hget Hne Hc1). unfold bind.
      rewrite (pick_multiple_above P c _ Hne Hlt). unfold ret.
      rewrite <- (map_map (tape cells) (pick P [])).
      rewrite <- Hlen, <- Hcl, map_tape_seq, Hmap. reflexivity.
  - intros Heq. subst c.
    destruct (pick_multiple_whole P g Hne) as [xs [Hs Hp]].
    exists xs. split; [|exact Hp].
    rewrite (field_value_many cfg key P _ g Hget Hne Hc1). unfold bind.
    now rewrite Hs.
Qed.

Lemma select_by_pool_size_witness :
  dict_get [(u"table_verbes", EList [u"a"; u"b"])] (u"table_verbes")
  = Some (EList [u"a"; u"b"])
  /\ 1 < 3
  /\ length [u"a"; u"b"] <= 3
  /\ _get_random_field_value [(u"table_verbes", EList [u"a"; u"b"])]
       (u"table_verbes") 3 (tape [1; 1; 0]%N)
     = Ok (SList [u"b"; u"b"; u"a"], drop 3 (tape [1; 1; 0]%N)).
Proof.
  split; [reflexivity|]. split; [lia|]. split; [simpl; lia|].
  refine (proj1 (proj1 (select_by_pool_size
                          [(u"table_verbes", EList [u"a"; u"b"])]
                          (u"table_verbes") [u"a"; u"b"] 3 (tape [1; 1; 0]%N)
                          eq_refl _ _ _) _)).
  - discriminate.
  - lia.
  - simpl. lia.
  - simpl. lia.
Defined.

(** ** The title pool builder: proofs *)

Lemma weighted_pool_length (d : list (pystr * Z)) :
  Forall (fun kv => (0 <= snd kv)%Z) d ->
  Z.of_nat
    (length
       (flat_map (fun '(title, count) => repeat title (Z.to_nat count)) d))
  = sum (map snd d).
Proof.
  induction 1 as [|[t w] d' Hw _ IH]; [reflexivity|].
  cbn [flat_map map snd]. unfold sum in *. cbn [fold_right].
  rewrite length_app, repeat_length. simpl in Hw. lia.
Qed.

Lemma weighted_pool_In (d : list (pystr * Z)) (t : pystr) :
  In t (flat_map (fun '(title, count) => repeat title (Z.to_nat count)) d) ->
  exists w, In (t, w) d /\ (0 < w)%Z.
Proof.
  intros H. apply in_flat_map in H.
  destruct H as [[t' w] [Hin Hrep]].
  pose proof (repeat_spec _ _ _ Hrep) as ->.
  exists w. split; [exact Hin|].
  destruct (Z.to_nat w) eqn:E; [destruct Hrep|lia].
Qed.

Lemma weighted_pool_count_absent (d : list (pystr * Z)) (t : pystr) :
  ~ In t (map fst d) ->
  count_occ pystr_eq_dec
    (flat_map (fun '(title, count) => repeat title (Z.to_nat count)) d) t = 0.
Proof.
  intros Hn. apply count_occ_not_In. intros Hin.
  destruct (weighted_pool_In d t Hin) as [w [Hw _]].
  apply Hn. apply in_map_iff. exists (t, w). split; [reflexivity|exact Hw].
Qed.

Lemma weighted_pool_count (d : list (pystr * Z)) (t : pystr) (w : Z) :
  NoDup (map fst d) ->
  In (t, w) d ->
  count_occ pystr_eq_dec
    (flat_map (fun '(title, count) => repeat title (Z.to_nat count)) d) t
  = Z.to_nat w.
Proof.
  induction d as [|[t' w'] d' IH]; intros Hnd Hin; [destruct Hin|].
  cbn [flat_map]. rewrite count_occ_app.
  cbn [map fst] in Hnd. inversion Hnd as [|? ? Hnotin Hnd']; subst.
  destruct Hin as [E|Hin].
  - injection E as -> ->.
    rewrite count_occ_repeat_eq by reflexivity.
    rewrite (weighted_pool_count_absent d' t Hnotin). lia.
  - assert (Hne : t <> t').
    { intros ->. apply Hnotin. apply in_map_iff.
      exists (t', w). split; [reflexivity|exact Hin]. }
    rewrite count_occ_repeat_neq by exact Hne.
    now rewrite (IH Hnd' Hin).
Qed.

Lemma count_occ_firstn_le (l : list pystr) (n : nat) (t : pystr) :
  count_occ pystr_eq_dec (firstn n l) t <= count_occ pystr_eq_dec l t.
Proof.
  rewrite <- (firstn_skipn n l) at 2. rewrite count_occ_app. lia.
Qed.

Lemma sum_bounds_weight (d : list (pystr * Z)) (t : pystr) (w : Z) :
  Forall (fun kv => (0 <= snd kv)%Z) d ->
  In (t, w) d ->
  (w <= sum (map snd d))%Z /\ (0 <= sum (map snd d))%Z.
Proof.
  induction 1 as [|[t' w'] d' Hw Hall IH]; intros Hin; [destruct Hin|].
  cbn [map snd]. unfold sum in *. cbn [fold_right]. simpl in Hw.
  assert (H0 : (0 <= fold_right Z.add 0 (map snd d'))%Z).
  { clear -Hall. induction Hall as [|[a b] l Hb _ IHl]; simpl in *; lia. }
  destruct Hin as [E|Hin].
  - injection E as -> ->. lia.
  - destruct (IH Hin). lia.
Qed.

Lemma accumulate_from_length (acc : Z) (ws : list Z) :
  length (accumulate_from acc ws) = length ws.
Proof.
  revert acc. induction ws as [|w ws IH]; intros acc; simpl; auto.
Qed.

Lemma accumulate_from_last (ws : list Z) :
  forall acc dflt,
    ws <> [] -> last (accumulate_from acc ws) dflt = (acc + sum ws)%Z.
Proof.
  induction ws as [|w ws IH]; intros acc dflt Hne; [congruence|].
  destruct ws as [|w' ws'].
  - simpl. lia.
  - change (last (accumulate_from acc (w :: w' :: ws')) dflt)
      with (last (accumulate_from (acc + w) (w' :: ws')) dflt).
    rewrite IH by discriminate.
    unfold sum. cbn [fold_right]. lia.
Qed.

(** The draw falls on an entry of positive weight. *)
Lemma bisect_positive_weight (ws : list Z) :
  forall (acc r total : Z),
    (acc * random_bits <= r * total)%Z ->
    (r * total < (acc + sum ws) * random_bits)%Z ->
    exists w,
      nth_error ws (bisect (accumulate_from acc ws) r total (length ws - 1))
      = Some w
      /\ (0 < w)%Z.
Proof.
  assert (Hbits : (0 < random_bits)%Z) by reflexivity.
  induction ws as [|w ws IH]; intros acc r total Hlo Hhi.
  - simpl in Hhi. lia.
  - unfold sum in Hhi. cbn [fold_right] in Hhi. fold (sum ws) in Hhi.
    cbn [accumulate_from length]. rewrite Nat.sub_succ, Nat.sub_0_r.
    destruct ws as [|w' ws'].
    + simpl. exists w. split; [reflexivity|]. simpl in Hhi. nia.
    + cbn [length bisect].
      destruct (r * total <? (acc + w) * random_bits)%Z eqn:E.
      * exists w. split; [reflexivity|]. apply Z.ltb_lt in E. nia.
      * apply Z.ltb_ge in E.
        destruct (IH (acc + w)%Z r total E) as [w0 [Hn Hp]]; [lia|].
        cbn [length] in Hn. rewrite Nat.sub_succ, Nat.sub_0_r in Hn.
        exists w0. split; [exact Hn|exact Hp].
Qed.

Lemma choices_loop_Ok (d : list (pystr * Z)) (k : nat) :
  (0 < sum (map snd d))%Z ->
  forall g,
    exists xs,
      choices_loop (map fst d) (accumulate (map snd d))
        (sum (map snd d)) k g
      = Ok (xs, drop k g)
      /\ length xs = k
      /\ Forall (fun t => exists w, In (t, w) d /\ (0 < w)%Z) xs.
Proof.
  intros Hpos. induction k as [|k IH]; intros g.
  - exists []. repeat split. constructor.
  - cbn [choices_loop]. unfold bind at 1. unfold random_random.
    set (r := (Z.of_N (g 0%nat) mod random_bits)%Z).
    assert (Hr : (0 <= r < random_bits)%Z)
      by (apply Z.mod_pos_bound; reflexivity).
    destruct (bisect_positive_weight (map snd d) 0 r (sum (map snd d)))
      as [w [Hn Hw]]; [nia|nia|].
    rewrite !length_map in *. unfold accumulate.
    set (i := bisect (accumulate_from 0 (map snd d)) r (sum (map snd d))
                (length d - 1)) in *.
    rewrite nth_error_map in Hn.
    destruct (nth_error d i) as [[t w1]|] eqn:Ei; [|discriminate].
    simpl in Hn. injection Hn as ->.
    rewrite nth_error_map, Ei. cbn [option_map fst].
    destruct (IH (advance g)) as [xs [Hs [Hlen Hall]]].
    unfold bind. unfold accumulate in Hs. rewrite Hs. unfold ret.
    exists (t :: xs). repeat split.
    + simpl. now rewrite Hlen.
    + constructor; [|exact Hall].
      exists w. split; [|exact Hw]. eapply nth_error_In; eassumption.
Qed.

(** C5: when the total weight covers the card count (weights non-negative,
    titles the distinct keys of the dict), the builder returns exactly
    card_count titles, the first card_count elements of a permutation of the
    weighted multiset; no title occurs more often than its weight, and each
    occurs exactly its weight when the total equals the card count. *)
Theorem build_title_pool_covering :
  forall (d : list (pystr * Z)) (card_count : Z) (g : rng),
    NoDup (map fst d) ->
    Forall (fun kv => (0 <= snd kv)%Z) d ->
    (0 <= card_count)%Z ->
    (card_count <= sum (map snd d))%Z ->
    exists titles shuffled g',
      build_title_pool d card_count g = Ok (titles, g')
      /\ Permutation shuffled
           (flat_map (fun '(title, count) => repeat title (Z.to_nat count)) d)
      /\ titles = firstn (Z.to_nat card_count) shuffled
      /\ Z.of_nat (length titles) = card_count
      /\ (forall t, In t titles -> In t (map fst d))
      /\ (forall t w,
             In (t, w) d ->
             (Z.of_nat (count_occ pystr_eq_dec titles t) <= w)%Z)
      /\ (sum (map snd d) = card_count ->
          forall t w,
            In (t, w) d ->
            Z.of_nat (count_occ pystr_eq_dec titles t) = w).
Proof.
  intros d card_count g Hnd Hnn Hcc Hle.
  set (pool :=
         flat_map (fun '(title, count) => repeat title (Z.to_nat count)) d).
  destruct (random_shuffle_Ok _ pool g) as [y [Hy Hp]].
  pose proof (weighted_pool_length d Hnn) as Hlen. fold pool in Hlen.
  pose proof (Permutation_length Hp) as Hyl.
  assert (Hcount : forall t w, In (t, w) d ->
            count_occ pystr_eq_dec y t = Z.to_nat w /\ (0 <= w)%Z).
  { intros t w Hin. split.
    - rewrite (proj1 (Permutation_count_occ pystr_eq_dec y pool) Hp t).
      now apply weighted_pool_count.
    - rewrite Forall_forall in Hnn. apply (Hnn (t, w) Hin). }
  exists (firstn (Z.to_nat card_count) y), y, (drop (length pool - 1) g).
  split.
  { unfold build_title_pool. fold pool.
    assert (Hge : (sum (map snd d) >=? card_count)%Z = true)
      by (apply Z.geb_le; exact Hle).
    rewrite Hge. unfold bind. rewrite Hy. unfold ret, slice_to.
    assert (H0 : (0 <=? card_count)%Z = true) by (apply Z.leb_le; exact Hcc).
    now rewrite H0. }
  split; [exact Hp|]. split; [reflexivity|]. split.
  { rewrite length_firstn. lia. }
  split.
  { intros t Hin.
    assert (Hiny : In t y).
    { rewrite <- (firstn_skipn (Z.to_nat card_count) y).
      apply in_or_app. now left. }
    destruct (weighted_pool_In d t (Permutation_in t Hp Hiny)) as [w [Hw _]].
    apply in_map_iff. exists (t, w). split; [reflexivity|exact Hw]. }
  split.
  { intros t w Hin. destruct (Hcount t w Hin) as [Hc Hw].
    pose proof (count_occ_firstn_le y (Z.to_nat card_count) t). lia. }
  intros Heq t w Hin. destruct (Hcount t w Hin) as [Hc Hw].
  rewrite firstn_all2 by lia. lia.
Qed.

Lemma build_title_pool_covering_witness :
  NoDup (map fst [(u"Le Fou", 2%Z); (u"La Tour", 1%Z)])
  /\ Forall (fun kv => (0 <= snd kv)%Z) [(u"Le Fou", 2%Z); (u"La Tour", 1%Z)]
  /\ (0 <= 2)%Z
  /\ (2 <= sum (map snd [(u"Le Fou", 2%Z); (u"La Tour", 1%Z)]))%Z
  /\ exists titles shuffled g',
       build_title_pool [(u"Le Fou", 2%Z); (u"La Tour", 1%Z)] 2
         (tape [0; 1]%N) = Ok (titles, g')
       /\ Permutation shuffled
            (flat_map (fun '(title, count) => repeat title (Z.to_nat count))
               [(u"Le Fou", 2%Z); (u"La Tour", 1%Z)])
       /\ titles = firstn (Z.to_nat 2) shuffled
       /\ Z.of_nat (length titles) = 2%Z
       /\ (forall t,
              In t titles ->
              In t (map fst [(u"Le Fou", 2%Z); (u"La Tour", 1%Z)]))
       /\ (forall t w,
              In (t, w) [(u"Le Fou", 2%Z); (u"La Tour", 1%Z)] ->
              (Z.of_nat (count_occ pystr_eq_dec titles t) <= w)%Z)
       /\ (sum (map snd [(u"Le Fou", 2%Z); (u"La Tour", 1%Z)]) = 2%Z ->
           forall t w,
             In (t, w) [(u"Le Fou", 2%Z); (u"La Tour", 1%Z)] ->
             Z.of_nat (count_occ pystr_eq_dec titles t) = w).
Proof.
  assert (Hnd : NoDup (map fst [(u"Le Fou", 2%Z); (u"La Tour", 1%Z)])).
  { constructor.
    - intros [E|[]]. vm_compute in E. discriminate E.
    - constructor; [intros []|constructor]. }
  assert (Hnn : Forall (fun kv => (0 <= snd kv)%Z)
                  [(u"Le Fou", 2%Z); (u"La Tour", 1%Z)])
    by (repeat constructor; simpl; lia).
  assert (H0 : (0 <= 2)%Z) by lia.
  assert (Hle : (2 <= sum (map snd [(u"Le Fou", 2%Z); (u"La Tour", 1%Z)]))%Z)
    by (vm_compute; discriminate).
  split; [exact Hnd|]. split; [exact Hnn|]. split; [exact H0|].
  split; [exact Hle|].
  exact (build_title_pool_covering [(u"Le Fou", 2%Z); (u"La Tour", 1%Z)] 2
           (tape [0; 1]%N) Hnd Hnn H0 Hle).
Defined.

(** C6: when the total weight is below the card count and some weight is
    positive (weights non-negative), the builder returns exactly card_count
    titles, each a key of the distribution with a positive weight. *)
Theorem build_title_pool_short :
  forall (d : list (pystr * Z)) (card_count : Z) (g : rng),
    Forall (fun kv => (0 <= snd kv)%Z) d ->
    (sum (map snd d) < card_count)%Z ->
    (exists t w, In (t, w) d /\ (0 < w)%Z) ->
    exists titles g',
      build_title_pool d card_count g = Ok (titles, g')
      /\ Z.of_nat (length titles) = card_count
      /\ Forall (fun t => exists w, In (t, w) d /\ (0 < w)%Z) titles.
Proof.
  intros d card_count g Hnn Hlt [t0 [w0 [Hin0 Hw0]]].
  destruct (sum_bounds_weight d t0 w0 Hnn Hin0) as [Hb _].
  assert (Hpos : (0 < sum (map snd d))%Z) by lia.
  destruct (choices_loop_Ok d (Z.to_nat card_count) Hpos g)
    as [xs [Hs [Hlen Hall]]].
  exists xs, (drop (Z.to_nat card_count) g). split; [|split].
  - unfold build_title_pool.
    assert (Hge : (sum (map snd d) >=? card_count)%Z = false).
    { destruct (sum (map snd d) >=? card_count)%Z eqn:E; [|reflexivity].
      apply Z.geb_le in E. lia. }
    rewrite Hge. unfold random_choices, accumulate.
    rewrite accumulate_from_length, !length_map, Nat.eqb_refl. cbn [negb].
    assert (Hne : map snd d <> []) by (destruct d; [destruct Hin0|discriminate]).
    destruct (accumulate_from 0 (map snd d)) as [|c cs] eqn:Ea.
    { apply (f_equal (@length Z)) in Ea.
      rewrite accumulate_from_length in Ea.
      destruct (map snd d); [congruence|discriminate]. }
    rewrite <- Ea, (accumulate_from_last (map snd d) 0 0 Hne), Z.add_0_l.
    assert (Hz : (sum (map snd d) <=? 0)%Z = false) by (apply Z.leb_gt; lia).
    rewrite Hz. exact Hs.
  - lia.
  - exact Hall.
Qed.

Lemma build_title_pool_short_witness :
  Forall (fun kv => (0 <= snd kv)%Z) [(u"Le Fou", 1%Z); (u"La Tour", 0%Z)]
  /\ (sum (map snd [(u"Le Fou", 1%Z); (u"La Tour", 0%Z)]) < 3)%Z
  /\ (exists t w,
         In (t, w) [(u"Le Fou", 1%Z); (u"La Tour", 0%Z)] /\ (0 < w)%Z)
  /\ exists titles g',
       build_title_pool [(u"Le Fou", 1%Z); (u"La Tour", 0%Z)] 3
         (tape [5; 9007199254740991; 7]%N) = Ok (titles, g')
       /\ Z.of_nat (length titles) = 3%Z
       /\ Forall
            (fun t =>
               exists w,
                 In (t, w) [(u"Le Fou", 1%Z); (u"La Tour", 0%Z)] /\ (0 < w)%Z)
            titles.
Proof.
  assert (Hnn : Forall (fun kv => (0 <= snd kv)%Z)
                  [(u"Le Fou", 1%Z); (u"La Tour", 0%Z)])
    by (repeat constructor; simpl; lia).
  assert (Hlt : (sum (map snd [(u"Le Fou", 1%Z); (u"La Tour", 0%Z)]) < 3)%Z)
    by reflexivity.
  assert (Hex : exists t w,
             In (t, w) [(u"Le Fou", 1%Z); (u"La Tour", 0%Z)] /\ (0 < w)%Z)
    by (exists (u"Le Fou"), 1%Z; split; [left; reflexivity|lia]).
  split; [exact Hnn|]. split; [exact Hlt|]. split; [exact Hex|].
  exact (build_title_pool_short [(u"Le Fou", 1%Z); (u"La Tour", 0%Z)] 3
           (tape [5; 9007199254740991; 7]%N) Hnn Hlt Hex).
Defined.

(** ** The configuration check and the driver: proofs *)

Lemma missing_keys_In (cfg : config) (k : pystr) :
  In k (missing_keys cfg) <-> In k required_keys /\ dict_get cfg k = None.
Proof.
  unfold missing_keys, key_missing. rewrite filter_In.
  destruct (dict_get cfg k); intuition congruence.
Qed.

Lemma empty_keys_In (cfg : config) (k : pystr) :
  In k (empty_keys cfg)
  <-> In k required_keys
      /\ exists e, dict_get cfg k = Some e /\ entry_truthy e = false.
Proof.
  unfold empty_keys, key_empty. rewrite filter_In.
  destruct (dict_get cfg k) as [e|].
  - split.
    + intros [Hin Ht]. split; [exact Hin|]. exists e.
      split; [reflexivity|]. now destruct (entry_truthy e).
    + intros [Hin [e' [E Ht]]]. injection E as <-. rewrite Ht. now split.
  - split; [intros [_ H]; discriminate|].
    intros [_ [e [E _]]]. discriminate.
Qed.

Lemma check_critical_lists_Ok (cfg : config) :
  check_critical_lists cfg = Ok tt
  <-> (forall k,
          In k required_keys ->
          exists e, dict_get cfg k = Some e /\ entry_truthy e = true).
Proof.
  unfold check_critical_lists. split.
  - intros H k Hk.
    destruct (missing_keys cfg) as [|m ms] eqn:Em; [|discriminate].
    destruct (empty_keys cfg) as [|x xs] eqn:Ee; [|discriminate].
    destruct (dict_get cfg k) as [e|] eqn:Eg.
    + exists e. split; [reflexivity|].
      destruct (entry_truthy e) eqn:Et; [reflexivity|].
      assert (Hin : In k (empty_keys cfg))
        by (apply empty_keys_In; split; [exact Hk|eauto]).
      rewrite Ee in Hin. destruct Hin.
    + assert (Hin : In k (missing_keys cfg))
        by (apply missing_keys_In; now split).
      rewrite Em in Hin. destruct Hin.
  - intros H.
    destruct (missing_keys cfg) as [|m ms] eqn:Em.
    + destruct (empty_keys cfg) as [|x xs] eqn:Ee; [reflexivity|].
      assert (Hin : In x (empty_keys cfg)) by (rewrite Ee; now left).
      apply empty_keys_In in Hin. destruct Hin as [Hk [e [E Ht]]].
      destruct (H x Hk) as [e' [E' Ht']]. congruence.
    + assert (Hin : In m (missing_keys cfg)) by (rewrite Em; now left).
      apply missing_keys_In in Hin. destruct Hin as [Hk E].
      destruct (H m Hk) as [e' [E' _]]. congruence.
Qed.

Lemma check_critical_lists_Raise (cfg : config) (e : exn) :
  check_critical_lists cfg = Raise e ->
  e = ValueError (error_msg (missing_keys cfg) (empty_keys cfg))
  /\ (missing_keys cfg <> [] \/ empty_keys cfg <> []).
Proof.
  unfold check_critical_lists.
  destruct (missing_keys cfg) as [|m ms];
    [destruct (empty_keys cfg) as [|x xs]; [discriminate|]|];
    intros H; injection H as <-; split; try reflexivity;
    [right|left]; discriminate.
Qed.


Lemma main_check_fails (repr_list : list pystr -> pystr) (cfg : config)
    (stdin : list answer) (g : rng) (msg : pystr) :
  check_critical_lists cfg = Raise (ValueError msg) ->
  main repr_list (Ok cfg) stdin g = Exited 1 [launch_failure msg].
Proof. intros H. unfold main. rewrite H. reflexivity. Qed.


Lemma mentions_inside (pre post body key : pystr) :
  mentions body key -> mentions (pre ++ body ++ post) key.
Proof.
  intros [p [q ->]]. exists (pre ++ p), (q ++ post).
  now rewrite <- !app_assoc.
Qed.





(** C1 (as stated, refuted): a configuration with no [emotions],
    [appearances] and [borders] pools passes the check, and the run
    completes with a card that has no [emotions] slot. *)
Lemma check_ignores_optional_pools :
  check_critical_lists required_only_config = Ok tt
  /\ dict_get required_only_config (u"emotions") = None
  /\ dict_get required_only_config (u"appearances") = None
  /\ dict_get required_only_config (u"borders") = None
  /\ exists printed c txt,
       main repr_plain (Ok required_only_config) [Number 1] (tape [])
       = Completed printed [c] txt
       /\ card_get c (u"emotions") = None
       /\ card_get c (u"appearance") = None
       /\ card_get c (u"borders") = None.
Proof.
  split; [reflexivity|]. split; [reflexivity|]. split; [reflexivity|].
  split; [reflexivity|].
  eexists. eexists. eexists. split; [vm_compute; reflexivity|].
  repeat split; reflexivity.
Qed.

(** ** The card assembler: proofs *)

Lemma pystr_eqb_eq (a b : pystr) : pystr_eqb a b = true <-> a = b.
Proof.
  unfold pystr_eqb. destruct (pystr_eq_dec a b); split; congruence.
Qed.

Lemma dict_get_not_In {V : Type} (d : list (pystr * V)) (key : pystr) :
  ~ In key (map fst d) -> dict_get d key = None.
Proof.
  induction d as [|[k v] d IH]; intros Hn; [reflexivity|].
  simpl. destruct (pystr_eqb k key) eqn:E.
  - apply pystr_eqb_eq in E. subst. exfalso. apply Hn. now left.
  - apply IH. intros Hin. apply Hn. now right.
Qed.

Lemma dict_get_filter (kvs : list (pystr * slot)) (key : pystr) :
  NoDup (map fst kvs) ->
  dict_get (filter slot_kept kvs) key
  = match dict_get kvs key with
    | Some v => if slot_truthy v then Some v else None
    | None => None
    end.
Proof.
  induction kvs as [|[k v] kvs IH]; intros Hnd; [reflexivity|].
  cbn [map fst] in Hnd. inversion Hnd as [|? ? Hnotin Hnd']; subst.
  cbn [filter dict_get]. unfold slot_kept at 1. cbn [snd].
  destruct (pystr_eqb k key) eqn:E.
  - apply pystr_eqb_eq in E. subst key.
    destruct (slot_truthy v) eqn:Et.
    + cbn [dict_get]. unfold pystr_eqb.
      destruct (pystr_eq_dec k k); congruence.
    + rewrite (IH Hnd'), (dict_get_not_In kvs k Hnotin). reflexivity.
  - destruct (slot_truthy v); [|now apply IH].
    cbn [dict_get]. rewrite E. now apply IH.
Qed.

Lemma lift_Ok {A : Type} (r : result A) (g g' : rng) (a : A) :
  lift r g = Ok (a, g') -> r = Ok a /\ g' = g.
Proof.
  destruct r as [x|e]; simpl; unfold ret, raise; intros H;
    [injection H as -> ->; now split|discriminate].
Qed.

Lemma Ok_pair_inj {A : Type} (a b : A) (g g' : rng) :
  Ok (a, g) = Ok (b, g') -> a = b /\ g = g'.
Proof. intros H. injection H as -> ->. now split. Qed.

Lemma slot_keys_NoDup :
  NoDup [ u"symbol"; u"verbs"; u"lieu"; u"personnage"; u"objet"; u"emotions";
          u"appearance"; u"motivation"; u"traits"; u"secret"; u"reaction";
          u"relation"; u"borders" ].
Proof.
  vm_compute.
  repeat (constructor; [simpl; intuition discriminate|]). constructor.
Qed.

(** The last two steps of [generate_card] and the slot they fill. *)
Lemma generate_card_borders (index : Z) (title : pystr) (cfg : config)
    (g g' : rng) (c : card) :
  generate_card index title cfg g = Ok (c, g') ->
  exists count gb borders,
    borders_count cfg = Ok count
    /\ _get_random_field_value cfg (u"borders") count gb = Ok (borders, g')
    /\ card_get c (u"borders")
       = (if slot_truthy borders then Some borders else None).
Proof.
  unfold generate_card. intros H.
  do 12 (apply bind_Ok in H; destruct H as (? & ? & _ & H)).
  apply bind_Ok in H. destruct H as (count & gb & Hcount & H).
  apply lift_Ok in Hcount. destruct Hcount as [Hcount _].
  apply bind_Ok in H. destruct H as (borders & g2 & Hb & H).
  match type of H with
  | context [filter slot_kept ?l] => set (kvs := l) in H
  end.
  apply Ok_pair_inj in H. destruct H as [<- <-].
  exists count, gb, borders. split; [exact Hcount|]. split; [exact Hb|].
  unfold card_get. cbn [slots].
  rewrite dict_get_filter by exact slot_keys_NoDup.
  unfold kvs.
  match goal with
  | |- context [dict_get ?l ?k] =>
      let v := eval vm_compute in (dict_get l k) in
      change (dict_get l k) with v
  end.
  reflexivity.
Qed.

Lemma field_value_total (cfg : config) (key : pystr) (count : nat) (g : rng) :
  dict_get cfg key = None \/ (exists l, dict_get cfg key = Some (EList l)) ->
  exists v g', _get_random_field_value cfg key count g = Ok (v, g').
Proof.
  intros [Hn|[l Hl]].
  - rewrite (field_value_absent cfg key count g Hn). eauto.
  - destruct l as [|a l'].
    + unfold _get_random_field_value. rewrite Hl. simpl. unfold ret. eauto.
    + destruct (Nat.eq_dec count 1) as [->|Hc].
      * rewrite (field_value_one cfg key (a :: l') g Hl); [eauto|discriminate].
      * rewrite (field_value_many cfg key (a :: l') count g Hl);
          [|discriminate|exact Hc].
        unfold bind.
        destruct (Nat.lt_ge_cases (length (a :: l')) count) as [Hlt|Hge].
        -- rewrite (pick_multiple_above (a :: l') count g);
             [unfold ret; eauto|discriminate|exact Hlt].
        -- destruct (pick_multiple_within (a :: l') count g)
             as [xs [rest [Hs _]]]; [discriminate|exact Hge|].
           rewrite Hs. unfold ret. eauto.
Qed.

Lemma bind_field_total {B : Type} (cfg : config) (key : pystr) (count : nat)
    (k : slot -> M B) (g : rng) :
  dict_get cfg key = None \/ (exists l, dict_get cfg key = Some (EList l)) ->
  (forall v g1, exists r, k v g1 = Ok r) ->
  exists r, bind (_get_random_field_value cfg key count) k g = Ok r.
Proof.
  intros Hk Hrest.
  destruct (field_value_total cfg key count g Hk) as [v [g1 H]].
  unfold bind. rewrite H. apply Hrest.
Qed.

Lemma borders_count_total (cfg : config) :
  pools_are_lists cfg ->
  borders_count cfg
  = Ok (match dict_get cfg (u"borders") with
        | Some (EList l) => Nat.min 12 (length l)
        | _ => 0
        end).
Proof.
  intros Hwf. unfold borders_count.
  destruct (Hwf (u"borders")) as [Hn|[l Hl]].
  - do 12 right. left. reflexivity.
  - now rewrite Hn.
  - now rewrite Hl.
Qed.

(** On a configuration whose pools are arrays, [generate_card] returns. *)
Lemma generate_card_total (index : Z) (title : pystr) (cfg : config)
    (g : rng) :
  pools_are_lists cfg ->
  exists r, generate_card index title cfg g = Ok r.
Proof.
  intros Hwf. unfold generate_card.
  do 12 (apply bind_field_total;
         [apply Hwf; vm_compute; tauto|intros ? ?]).
  rewrite (borders_count_total cfg Hwf). unfold bind at 1. cbn [lift ret].
  apply bind_field_total; [apply Hwf; vm_compute; tauto|intros ? ?].
  unfold ret. eauto.
Qed.

Lemma single_border_config_pools : pools_are_lists single_border_config.
Proof.
  intros key Hin. simpl in Hin.
  repeat (destruct Hin as [<-|Hin];
          [first [left; reflexivity | right; eexists; reflexivity]|]).
  destruct Hin.
Qed.

Lemma pick_singleton {A : Type} (a d : A) (r : N) : pick [a] d r = a.
Proof. unfold pick. cbn [length]. now rewrite N.mod_1_r. Qed.

Lemma content_lines_borders_last (repr_list : list pystr -> pystr)
    (c : card) (line : pystr) :
  borders_line c = [line] ->
  exists before, content_lines repr_list c = before ++ [line].
Proof.
  intros H. unfold content_lines. rewrite H.
  exists ([header_line c] ++ flat_map (field_line c) fields
            ++ reaction_line repr_list c).
  now rewrite <- !app_assoc.
Qed.

(** With a [borders] pool of two entries or more, the slot holds
    min(12, pool size) entries of the pool and the renderer's last line is
    "Thèmes : " followed by these entries joined with ", ". *)
Lemma generate_card_borders_list (repr_list : list pystr -> pystr)
    (index : Z) (title : pystr) (cfg : config) (P : list pystr) (g : rng) :
  pools_are_lists cfg ->
  dict_get cfg (u"borders") = Some (EList P) ->
  2 <= length P ->
  exists c g' xs,
    generate_card index title cfg g = Ok (c, g')
    /\ card_get c (u"borders") = Some (SList xs)
    /\ length xs = Nat.min 12 (length P)
    /\ (forall x, In x xs -> In x P)
    /\ exists before,
         content_lines repr_list c
         = before ++ [u"Thèmes : " ++ join (u", ") xs].
Proof.
  intros Hwf Hb Hlen.
  destruct (generate_card_total index title cfg g Hwf) as [[c g'] Hgen].
  destruct (generate_card_borders index title cfg g g' c Hgen)
    as (count & gb & borders & Hcount & Hval & Hslot).
  rewrite (borders_count_total cfg Hwf), Hb in Hcount.
  assert (Hc : count = Nat.min 12 (length P)) by congruence. subst count.
  assert (Hne : P <> []) by (destruct P; [simpl in Hlen; lia|discriminate]).
  rewrite (field_value_many cfg (u"borders") P _ gb Hb Hne) in Hval by lia.
  assert (Hmin : Nat.min 12 (length P) <= length P) by apply Nat.le_min_r.
  destruct (pick_multiple_within P (Nat.min 12 (length P)) gb Hne Hmin)
    as [xs [rest [Hs [Hxl Hp]]]].
  unfold bind in Hval. rewrite Hs in Hval. unfold ret in Hval.
  apply Ok_pair_inj in Hval. destruct Hval as [<- <-].
  assert (Ht : slot_truthy (SList xs) = true)
    by (destruct xs; [cbn [length] in Hxl; lia|reflexivity]).
  rewrite Ht in Hslot.
  exists c, (drop (Nat.min 12 (length P)) gb), xs.
  split; [exact Hgen|]. split; [exact Hslot|]. split; [exact Hxl|]. split.
  - intros x Hx. apply (Permutation_in x Hp). apply in_or_app. now left.
  - apply content_lines_borders_last. unfold borders_line.
    now rewrite Hslot, Ht.
Qed.

(** C4 (failing input): with the [borders] pool ["Feu"] the count is 1, the
    slot holds the string "Feu" and not a list, and the renderer's last line
    is "Thèmes : F, e, u": the separator stands between the characters of
    the entry, not between pool entries. *)
Theorem single_border_entry_is_split :
  forall (repr_list : list pystr -> pystr) (index : Z) (title : pystr)
         (g : rng),
    borders_count single_border_config = Ok 1
    /\ exists c g',
         generate_card index title single_border_config g = Ok (c, g')
         /\ card_get c (u"borders") = Some (SStr (u"Feu"))
         /\ borders_line c = [u"Thèmes : F, e, u"]
         /\ exists before,
              content_lines repr_list c = before ++ [u"Thèmes : F, e, u"].
Proof.
  intros repr_list index title g. split; [reflexivity|].
  destruct (generate_card_total index title single_border_config g
              single_border_config_pools) as [[c g'] Hgen].
  destruct (generate_card_borders index title single_border_config g g' c Hgen)
    as (count & gb & borders & Hcount & Hval & Hslot).
  injection Hcount as <-.
  rewrite (field_value_one single_border_config (u"borders") [u"Feu"] gb
             eq_refl) in Hval by discriminate.
  rewrite pick_singleton in Hval. injection Hval as <- <-.
  assert (Hline : borders_line c = [u"Thèmes : F, e, u"])
    by (unfold borders_line; rewrite Hslot; reflexivity).
  exists c, (advance gb). split; [exact Hgen|]. split; [exact Hslot|].
  split; [exact Hline|].
  now apply content_lines_borders_last.
Qed.


(** ** Further properties of the field selector *)

(** X1: for a pool that is missing, or present with an empty or otherwise
    falsy value, the selector returns "" when count is 1 and [] otherwise,
    and draws nothing from the random source. *)
Theorem field_value_empty_pool :
  forall (cfg : config) (key : pystr) (count : nat) (g : rng),
    (dict_get cfg key = None
     \/ exists e, dict_get cfg key = Some e /\ entry_truthy e = false) ->
    _get_random_field_value cfg key count g
    = Ok (if count =? 1 then SStr [] else SList [], g).
Proof.
  intros cfg key count g [Hn|[e [He Ht]]].
  - now apply field_value_absent.
  - unfold _get_random_field_value. rewrite He, Ht. reflexivity.
Qed.

Lemma field_value_empty_pool_witness :
  (dict_get [(u"objets", EList [])] (u"objets") = None
   \/ exists e,
        dict_get [(u"objets", EList [])] (u"objets") = Some e
        /\ entry_truthy e = false)
  /\ _get_random_field_value [(u"objets", EList [])] (u"objets") 1 (tape [7%N])
     = Ok (SStr [], tape [7%N]).
Proof.
  assert (H : dict_get [(u"objets", EList [])] (u"objets") = None
              \/ exists e,
                   dict_get [(u"objets", EList [])] (u"objets") = Some e
                   /\ entry_truthy e = false)
    by (right; exists (EList []); split; reflexivity).
  split; [exact H|].
  exact (field_value_empty_pool [(u"objets", EList [])] (u"objets") 1
           (tape [7%N]) H).
Defined.

(** X2: with count 1 and a non-empty pool the selector returns one string,
    an element of the pool, and reads one cell of the random source. *)
Theorem field_value_single_draw :
  forall (cfg : config) (key : pystr) (P : list pystr) (g : rng),
    dict_get cfg key = Some (EList P) ->
    P <> [] ->
    exists x,
      _get_random_field_value cfg key 1 g = Ok (SStr x, advance g)
      /\ In x P.
Proof.
  intros cfg key P g Hget Hne. exists (pick P [] (g 0)). split.
  - now apply field_value_one.
  - now apply pick_In.
Qed.

Lemma field_value_single_draw_witness :
  dict_get [(u"lieux", EList [u"Tour"; u"Crypte"])] (u"lieux")
  = Some (EList [u"Tour"; u"Crypte"])
  /\ exists x,
       _get_random_field_value [(u"lieux", EList [u"Tour"; u"Crypte"])]
         (u"lieux") 1 (tape [3%N])
       = Ok (SStr x, advance (tape [3%N]))
       /\ In x [u"Tour"; u"Crypte"].
Proof.
  split; [reflexivity|].
  refine (field_value_single_draw [(u"lieux", EList [u"Tour"; u"Crypte"])]
            (u"lieux") [u"Tour"; u"Crypte"] (tape [3%N]) eq_refl _).
  discriminate.
Defined.

(** X3: with 1 < count <= len(pool) the selector returns count elements
    taken at distinct positions of the pool: together with the pool entries
    left over they are a permutation of the pool, so a pool without
    duplicates gives a result without duplicates. *)
Theorem field_value_distinct_positions :
  forall (cfg : config) (key : pystr) (P : list pystr) (c : nat) (g : rng),
    dict_get cfg key = Some (EList P) ->
    1 < c ->
    c <= length P ->
    exists xs rest,
      _get_random_field_value cfg key c g = Ok (SList xs, drop c g)
      /\ length xs = c
      /\ Permutation (xs ++ rest) P
      /\ (forall x, In x xs -> In x P)
      /\ (NoDup P -> NoDup xs).
Proof.
  intros cfg key P c g Hget Hc Hle.
  assert (Hne : P <> []) by (destruct P; [simpl in Hle; lia|discriminate]).
  assert (Hc1 : c <> 1) by lia.
  destruct (pick_multiple_within P c g Hne Hle) as [xs [rest [Hs [Hlen Hp]]]].
  exists xs, rest. split; [|split; [exact Hlen|split; [exact Hp|split]]].
  - rewrite (field_value_many cfg key P c g Hget Hne Hc1). unfold bind.
    now rewrite Hs.
  - intros x Hx. apply (Permutation_in x Hp). apply in_or_app. now left.
  - intros Hnd.
    apply (NoDup_app_remove_r xs rest).
    apply (Permutation_NoDup (Permutation_sym Hp) Hnd).
Qed.

Lemma field_value_distinct_positions_witness :
  dict_get [(u"traits", EList [u"a"; u"b"; u"c"; u"d"])] (u"traits")
  = Some (EList [u"a"; u"b"; u"c"; u"d"])
  /\ 1 < 3
  /\ 3 <= length [u"a"; u"b"; u"c"; u"d"]
  /\ exists xs rest,
       _get_random_field_value [(u"traits", EList [u"a"; u"b"; u"c"; u"d"])]
         (u"traits") 3 (tape [1; 1; 1]%N)
       = Ok (SList xs, drop 3 (tape [1; 1; 1]%N))
       /\ length xs = 3
       /\ Permutation (xs ++ rest) [u"a"; u"b"; u"c"; u"d"]
       /\ (forall x, In x xs -> In x [u"a"; u"b"; u"c"; u"d"])
       /\ (NoDup [u"a"; u"b"; u"c"; u"d"] -> NoDup xs).
Proof.
  split; [reflexivity|]. split; [lia|]. split; [simpl; lia|].
  refine (field_value_distinct_positions
            [(u"traits", EList [u"a"; u"b"; u"c"; u"d"])] (u"traits")
            [u"a"; u"b"; u"c"; u"d"] 3 (tape [1; 1; 1]%N) eq_refl _ _).
  - lia.
  - simpl. lia.
Defined.

(** X4: a pool key bound to a non-empty value that is not an array (a
    non-zero number, true, a non-empty object) is neither missing nor empty
    for the configuration check, and the selector raises on it. *)
Theorem field_value_non_list_raises :
  forall (cfg : config) (key : pystr) (e : entry) (count : nat) (g : rng),
    dict_get cfg key = Some e ->
    entry_truthy e = true ->
    (forall l, e <> EList l) ->
    key_missing cfg key = false
    /\ key_empty cfg key = false
    /\ (_get_random_field_value cfg key count g = Raise TypeError
        \/ _get_random_field_value cfg key count g = Raise KeyError).
Proof.
  intros cfg key e count g Hget Ht Hnl.
  unfold key_missing, key_empty, _get_random_field_value.
  rewrite Hget, Ht. split; [reflexivity|]. split; [reflexivity|].
  cbn [negb].
  destruct e as [|b|z|l|d]; try (left; reflexivity).
  - exfalso. now apply (Hnl l).
  - destruct ((count =? 1) || (length d <? count));
      [right|left]; reflexivity.
Qed.

Lemma field_value_non_list_raises_witness :
  dict_get [(u"symbols", ENum 5)] (u"symbols") = Some (ENum 5)
  /\ entry_truthy (ENum 5) = true
  /\ key_missing [(u"symbols", ENum 5)] (u"symbols") = false
  /\ key_empty [(u"symbols", ENum 5)] (u"symbols") = false
  /\ (_get_random_field_value [(u"symbols", ENum 5)] (u"symbols") 1 (tape [])
      = Raise TypeError
      \/ _get_random_field_value [(u"symbols", ENum 5)] (u"symbols") 1
           (tape [])
         = Raise KeyError).
Proof.
  split; [reflexivity|]. split; [reflexivity|].
  refine (field_value_non_list_raises [(u"symbols", ENum 5)] (u"symbols")
            (ENum 5) 1 (tape []) eq_refl eq_refl _).
  intros l. discriminate.
Defined.


(** ** Further properties of the title pool builder and the driver *)






(** ** Further properties of the card assembler *)

Lemma generate_card_shape (index : Z) (title0 : pystr) (cfg : config)
    (g g' : rng) (c : card) :
  generate_card index title0 cfg g = Ok (c, g') ->
  exists kvs,
    map fst kvs = slot_names
    /\ slots c = filter slot_kept kvs
    /\ number c = (if (index =? 0)%Z then None else Some index)
    /\ title c = match title0 with [] => None | _ => Some title0 end.
Proof.
  unfold generate_card. intros H.
  do 14 (apply bind_Ok in H; destruct H as (? & ? & _ & H)).
  match type of H with
  | context [filter slot_kept ?l] => set (kvs := l) in H
  end.
  apply Ok_pair_inj in H. destruct H as [<- _].
  exists kvs. repeat split.
Qed.

Lemma filter_keys_NoDup (kvs : list (pystr * slot)) :
  NoDup (map fst kvs) -> NoDup (map fst (filter slot_kept kvs)).
Proof.
  induction kvs as [|[k v] kvs IH]; intros Hnd; [constructor|].
  cbn [map fst] in Hnd. inversion Hnd as [|? ? Hnotin Hnd']; subst.
  cbn [filter]. destruct (slot_kept (k, v)); [|now apply IH].
  cbn [map fst]. constructor; [|now apply IH].
  intros Hin. apply Hnotin.
  apply in_map_iff in Hin. destruct Hin as [[k' v'] [Hk Hin]].
  apply filter_In in Hin. destruct Hin as [Hin _].
  apply in_map_iff. exists (k', v'). now split.
Qed.

(** X6: a card returned by [generate_card] holds only populated slots: every
    stored value is a non-empty string or list, every key is one of the
    thirteen slot names and occurs once; the number is kept unless it is 0
    and the title unless it is the empty string. *)
Theorem generate_card_keeps_populated_slots :
  forall (index : Z) (title0 : pystr) (cfg : config) (g g' : rng) (c : card),
    generate_card index title0 cfg g = Ok (c, g') ->
    Forall
      (fun kv => In (fst kv) slot_names /\ slot_truthy (snd kv) = true)
      (slots c)
    /\ NoDup (map fst (slots c))
    /\ number c = (if (index =? 0)%Z then None else Some index)
    /\ title c = match title0 with [] => None | _ => Some title0 end.
Proof.
  intros index title0 cfg g g' c H.
  destruct (generate_card_shape index title0 cfg g g' c H)
    as [kvs [Hkeys [Hslots [Hnum Htitle]]]].
  split; [|split; [|now split]].
  - rewrite Hslots. apply Forall_forall. intros [k v] Hin.
    apply filter_In in Hin. destruct Hin as [Hin Hkept]. split.
    + rewrite <- Hkeys. apply in_map_iff. exists (k, v). now split.
    + exact Hkept.
  - rewrite Hslots. apply filter_keys_NoDup. rewrite Hkeys.
    exact slot_keys_NoDup.
Qed.

Lemma generate_card_keeps_populated_slots_witness :
  exists c g',
    generate_card 1 (u"Le Fou") incomplete_config (tape []) = Ok (c, g')
    /\ Forall
         (fun kv => In (fst kv) slot_names /\ slot_truthy (snd kv) = true)
         (slots c)
    /\ NoDup (map fst (slots c))
    /\ number c = Some 1%Z
    /\ title c = Some (u"Le Fou").
Proof.
  destruct (generate_card 1 (u"Le Fou") incomplete_config (tape []))
    as [[c g']|e] eqn:E; [|vm_compute in E; discriminate E].
  exists c, g'. split; [reflexivity|].
  exact (generate_card_keeps_populated_slots 1 (u"Le Fou") incomplete_config
           (tape []) g' c E).
Defined.

Lemma field_value_falsy (cfg : config) (key : pystr) (count : nat) (g : rng)
    (v : slot) (g' : rng) :
  (dict_get cfg key = None \/ dict_get cfg key = Some (EList [])) ->
  _get_random_field_value cfg key count g = Ok (v, g') ->
  slot_truthy v = false.
Proof.
  unfold _get_random_field_value.
  intros [->| ->]; cbn [entry_truthy length Nat.eqb negb]; unfold ret;
    intros H; injection H as <- _; now destruct (count =? 1).
Qed.

(** X7: when the configuration has no [borders] pool, or an empty one, the
    card has no borders slot and the renderer adds no "Thèmes" line. *)
Theorem generate_card_without_borders :
  forall (index : Z) (title0 : pystr) (cfg : config) (g g' : rng) (c : card),
    (dict_get cfg (u"borders") = None
     \/ dict_get cfg (u"borders") = Some (EList [])) ->
    generate_card index title0 cfg g = Ok (c, g') ->
    card_get c (u"borders") = None /\ borders_line c = [].
Proof.
  intros index title0 cfg g g' c Hb H.
  destruct (generate_card_borders index title0 cfg g g' c H)
    as (count & gb & borders & _ & Hval & Hslot).
  rewrite (field_value_falsy cfg (u"borders") count gb borders g' Hb Hval)
    in Hslot.
  split; [exact Hslot|]. unfold borders_line. now rewrite Hslot.
Qed.

Lemma generate_card_without_borders_witness :
  exists c g',
    (dict_get required_only_config (u"borders") = None
     \/ dict_get required_only_config (u"borders") = Some (EList []))
    /\ generate_card 1 (u"Le Fou") required_only_config (tape []) = Ok (c, g')
    /\ card_get c (u"borders") = None
    /\ borders_line c = [].
Proof.
  destruct (generate_card 1 (u"Le Fou") required_only_config (tape []))
    as [[c g']|e] eqn:E; [|vm_compute in E; discriminate E].
  exists c, g'. split; [left; reflexivity|]. split; [reflexivity|].
  exact (generate_card_without_borders 1 (u"Le Fou") required_only_config
           (tape []) g' c (or_introl eq_refl) E).
Defined.

(** ** Further properties of the driver *)

Lemma generate_cards_numbered (n : nat) :
  forall (start : nat) (title_pool : list pystr) (cfg : config) (g g' : rng)
         (cards : list card),
    1 <= start ->
    generate_cards (seq start n) title_pool cfg g = Ok (cards, g') ->
    map number cards = map (fun i => Some (Z.of_nat i)) (seq start n)
    /\ map title cards
       = map (fun i =>
                match nth_error title_pool (i - 1) with
                | Some (ch :: t) => Some (ch :: t)
                | _ => None
                end) (seq start n).
Proof.
  induction n as [|n IH]; intros start title_pool cfg g g' cards Hs H.
  - cbn [seq generate_cards] in H. apply Ok_pair_inj in H.
    destruct H as [<- _]. split; reflexivity.
  - cbn [seq generate_cards] in H.
    destruct (nth_error title_pool (start - 1)) as [t|] eqn:Et;
      [|discriminate H].
    apply bind_Ok in H. destruct H as (c & g1 & Hc & H).
    apply bind_Ok in H. destruct H as (rest & g2 & Hrest & H).
    apply Ok_pair_inj in H. destruct H as [<- _].
    destruct (generate_card_shape _ _ _ _ _ _ Hc) as [_ [_ [_ [Hn Ht]]]].
    destruct (IH (S start) title_pool cfg g1 g2 rest) as [IHn IHt];
      [lia|exact Hrest|].
    cbn [seq map]. rewrite IHn, IHt, Hn, Ht, Et.
    assert (Hz : (Z.of_nat start =? 0)%Z = false) by (apply Z.eqb_neq; lia).
    rewrite Hz. split; [reflexivity|]. now destruct t.
Qed.

Lemma generate_cards_total (n : nat) :
  forall (start : nat) (title_pool : list pystr) (cfg : config) (g : rng),
    pools_are_lists cfg ->
    1 <= start ->
    start - 1 + n <= length title_pool ->
    exists cards g',
      generate_cards (seq start n) title_pool cfg g = Ok (cards, g')
      /\ length cards = n.
Proof.
  induction n as [|n IH]; intros start title_pool cfg g Hwf Hs Hlen.
  - exists [], g. split; reflexivity.
  - cbn [seq generate_cards].
    destruct (nth_error title_pool (start - 1)) as [t|] eqn:Et;
      [|apply nth_error_None in Et; lia].
    destruct (generate_card_total (Z.of_nat start) t cfg g Hwf)
      as [[c g1] Hc].
    destruct (IH (S start) title_pool cfg g1 Hwf) as [rest [g2 [Hr Hl]]];
      [lia|lia|].
    exists (c :: rest), g2. unfold bind. rewrite Hc, Hr. unfold ret.
    split; [reflexivity|]. simpl. now rewrite Hl.
Qed.

Lemma build_title_pool_returns (d : list (pystr * Z)) (card_count : Z)
    (g : rng) :
  Forall (fun kv => (0 <= snd kv)%Z) d ->
  (0 < sum (map snd d))%Z ->
  exists titles g',
    build_title_pool d card_count g = Ok (titles, g')
    /\ Z.to_nat card_count <= length titles.
Proof.
  intros Hnn Hpos. unfold build_title_pool.
  destruct (sum (map snd d) >=? card_count)%Z eqn:Ege.
  - apply Z.geb_le in Ege.
    set (pool :=
           flat_map (fun '(title, count) => repeat title (Z.to_nat count)) d).
    destruct (random_shuffle_Ok _ pool g) as [y [Hy Hp]].
    pose proof (weighted_pool_length d Hnn) as Hlen. fold pool in Hlen.
    pose proof (Permutation_length Hp) as Hyl.
    exists (slice_to y card_count), (drop (length pool - 1) g).
    unfold bind. rewrite Hy. unfold ret. split; [reflexivity|].
    unfold slice_to. destruct (0 <=? card_count)%Z eqn:E0.
    + apply Z.leb_le in E0. rewrite length_firstn. lia.
    + apply Z.leb_gt in E0. lia.
  - assert (Hlt : (sum (map snd d) < card_count)%Z).
    { destruct (Z.lt_ge_cases (sum (map snd d)) card_count) as [H|H];
        [exact H|].
      apply Z.geb_le in H. congruence. }
    destruct (choices_loop_Ok d (Z.to_nat card_count) Hpos g)
      as [xs [Hs [Hlen _]]].
    exists xs, (drop (Z.to_nat card_count) g). split; [|lia].
    unfold random_choices, accumulate.
    rewrite accumulate_from_length, !length_map, Nat.eqb_refl. cbn [negb].
    assert (Hne : map snd d <> [])
      by (destruct d; [vm_compute in Hpos; discriminate Hpos|discriminate]).
    destruct (accumulate_from 0 (map snd d)) as [|c cs] eqn:Ea.
    { apply (f_equal (@length Z)) in Ea.
      rewrite accumulate_from_length in Ea.
      destruct (map snd d); [congruence|discriminate]. }
    rewrite <- Ea, (accumulate_from_last (map snd d) 0 0 Hne), Z.add_0_l.
    assert (Hz : (sum (map snd d) <=? 0)%Z = false) by (apply Z.leb_gt; lia).
    rewrite Hz. exact Hs.
Qed.

(** X8: on a configuration whose pools are arrays of strings, with title
    weights that are non-negative and have a positive total, the title
    assignment and the generation loop of [main] return for every requested
    count and every tape: they yield exactly max(count, 0) cards, numbered
    1, 2, ... in order, the card of number i carrying the title at position
    i - 1 of the title pool (no title when that one is the empty string).
    The output stage that follows in [main] is not covered. *)
Theorem generation_yields_numbered_deck :
  forall (cfg : config) (d : list (pystr * Z)) (n : Z) (g : rng),
    pools_are_lists cfg ->
    Forall (fun kv => (0 <= snd kv)%Z) d ->
    (0 < sum (map snd d))%Z ->
    exists title_pool g1 cards g2,
      build_title_pool d n g = Ok (title_pool, g1)
      /\ generate_cards (seq 1 (Z.to_nat n)) title_pool cfg g1
         = Ok (cards, g2)
      /\ length cards = Z.to_nat n
      /\ map number cards
         = map (fun i => Some (Z.of_nat i)) (seq 1 (Z.to_nat n))
      /\ map title cards
         = map (fun i =>
                  match nth_error title_pool (i - 1) with
                  | Some (ch :: t) => Some (ch :: t)
                  | _ => None
                  end) (seq 1 (Z.to_nat n)).
Proof.
  intros cfg d n g Hwf Hnn Hpos.
  destruct (build_title_pool_returns d n g Hnn Hpos)
    as [titles [g1 [Hb Hlen]]].
  destruct (generate_cards_total (Z.to_nat n) 1 titles cfg g1 Hwf (le_n 1))
    as [cards [g2 [Hc Hl]]]; [lia|].
  destruct (generate_cards_numbered (Z.to_nat n) 1 titles cfg g1 g2 cards
              (le_n 1) Hc) as [Hn Ht].
  exists titles, g1, cards, g2.
  split; [exact Hb|]. split; [exact Hc|]. split; [exact Hl|].
  split; [exact Hn|exact Ht].
Qed.

Lemma required_only_config_pools : pools_are_lists required_only_config.
Proof.
  intros key Hin. simpl in Hin.
  repeat (destruct Hin as [<-|Hin];
          [first [left; reflexivity | right; eexists; reflexivity]|]).
  destruct Hin.
Qed.

Lemma generation_yields_numbered_deck_witness :
  (0 < sum (map snd [(u"Le Fou", 1%Z)]))%Z
  /\ exists title_pool g1 cards g2,
       build_title_pool [(u"Le Fou", 1%Z)] 2 (tape []) = Ok (title_pool, g1)
       /\ generate_cards (seq 1 (Z.to_nat 2)) title_pool required_only_config
            g1
          = Ok (cards, g2)
       /\ length cards = Z.to_nat 2
       /\ map number cards
          = map (fun i => Some (Z.of_nat i)) (seq 1 (Z.to_nat 2))
       /\ map title cards
          = map (fun i =>
                   match nth_error title_pool (i - 1) with
                   | Some (ch :: t) => Some (ch :: t)
                   | _ => None
                   end) (seq 1 (Z.to_nat 2)).
Proof.
  split; [reflexivity|].
  refine (generation_yields_numbered_deck required_only_config
            [(u"Le Fou", 1%Z)] 2 (tape []) required_only_config_pools _ _).
  - repeat constructor. simpl. lia.
  - reflexivity.
Defined.

Lemma handle_not_Completed (e : exn) (printed printed' : list pystr)
    (cards : list card) (txt : pystr) :
  handle e printed <> Completed printed' cards txt.
Proof. destruct e; discriminate. Qed.

(** X9: whenever a run completes, its cards are numbered 1, 2, ..., N in
    deck order without gap or repetition, and the text body is the one
    [save_as_txt] builds from exactly these cards. *)
Theorem main_cards_numbered :
  forall (repr_list : list pystr -> pystr) (loaded : result config)
         (stdin : list answer) (g : rng) (printed : list pystr)
         (cards : list card) (txt : pystr),
    main repr_list loaded stdin g = Completed printed cards txt ->
    map number cards
    = map (fun i => Some (Z.of_nat i)) (seq 1 (length cards))
    /\ txt = save_as_txt repr_list cards.
Proof.
  intros repr_list loaded stdin g printed cards txt H. unfold main in H.
  destruct loaded as [cfg|e]; [|now apply handle_not_Completed in H].
  destruct (check_critical_lists cfg) as [[]|e];
    [|now apply handle_not_Completed in H].
  destruct (default_card_count cfg) as [dc|e];
    [|now apply handle_not_Completed in H].
  destruct (_prompt_for_card_count dc stdin) as [[n|e] pr];
    [|now apply handle_not_Completed in H].
  destruct (title_distribution_items cfg) as [items|e];
    [|now apply handle_not_Completed in H].
  destruct (build_title_pool items n g) as [[title_pool g1]|e];
    [|now apply handle_not_Completed in H].
  destruct (generate_cards (seq 1 (Z.to_nat n)) title_pool cfg g1)
    as [[cs g2]|e] eqn:Hc; [|discriminate H].
  injection H as <- <- <-.
  destruct (generate_cards_numbered (Z.to_nat n) 1 title_pool cfg g1 g2 cs
              (le_n 1) Hc) as [Hn _].
  split; [|reflexivity].
  assert (Hl : length cs = Z.to_nat n).
  { apply (f_equal (@length (option Z))) in Hn.
    now rewrite !length_map, length_seq in Hn. }
  now rewrite Hl.
Qed.

Lemma main_cards_numbered_witness :
  exists printed cards txt,
    main repr_plain (Ok required_only_config) [Number 3] (tape [])
    = Completed printed cards txt
    /\ map number cards
       = map (fun i => Some (Z.of_nat i)) (seq 1 (length cards))
    /\ txt = save_as_txt repr_plain cards.
Proof.
  destruct (main repr_plain (Ok required_only_config) [Number 3] (tape []))
    as [code pr|e pr|printed cards txt] eqn:E;
    [vm_compute in E; discriminate E|vm_compute in E; discriminate E|].
  exists printed, cards, txt. split; [reflexivity|].
  exact (main_cards_numbered repr_plain (Ok required_only_config) [Number 3]
           (tape []) printed cards txt E).
Defined.

(** ** Further properties of the prompt and of the configuration check *)


Lemma required_keys_NoDup : NoDup required_keys.
Proof.
  vm_compute.
  repeat (constructor; [simpl; intuition discriminate|]). constructor.
Qed.

(** X11: the report of the check names a key at most once: the list of
    missing keys and the list of empty keys have no repetition and no key in
    common, and both follow the order of the required keys. *)
Theorem check_lists_each_key_once :
  forall cfg : config,
    NoDup (missing_keys cfg ++ empty_keys cfg)
    /\ missing_keys cfg = filter (key_missing cfg) required_keys
    /\ empty_keys cfg = filter (key_empty cfg) required_keys.
Proof.
  intros cfg. split; [|split; reflexivity].
  apply NoDup_app.
  - apply NoDup_filter. exact required_keys_NoDup.
  - apply NoDup_filter. exact required_keys_NoDup.
  - intros k Hm He.
    apply missing_keys_In in Hm. destruct Hm as [_ Hnone].
    apply empty_keys_In in He. destruct He as [_ [e [Hsome _]]].
    congruence.
Qed.

(** ** Further properties of the renderer and of the text output *)

Lemma card_get_with_slot_other (c : card) (key key' : pystr) (v : slot) :
  key <> key' -> card_get (with_slot c key v) key' = card_get c key'.
Proof.
  intros Hne. unfold card_get, with_slot. cbn [slots dict_get].
  destruct (pystr_eqb key key') eqn:E; [|reflexivity].
  apply pystr_eqb_eq in E. contradiction.
Qed.

Lemma field_line_with_slot (c : card) (key : pystr) (v : slot)
    (f : pystr * pystr * pystr) :
  key <> fst (fst f) -> field_line (with_slot c key v) f = field_line c f.
Proof.
  destruct f as [[k label] sep]. cbn [fst]. intros Hne. unfold field_line.
  now rewrite (card_get_with_slot_other c key k v Hne).
Qed.

Lemma flat_map_field_line_with_slot (c : card) (key : pystr) (v : slot)
    (fs : list (pystr * pystr * pystr)) :
  ~ In key (map (fun f => fst (fst f)) fs) ->
  flat_map (field_line (with_slot c key v)) fs = flat_map (field_line c) fs.
Proof.
  induction fs as [|f fs IH]; intros Hn; [reflexivity|].
  cbn [flat_map]. rewrite IH by (intros H; apply Hn; now right).
  rewrite field_line_with_slot; [reflexivity|].
  intros H. apply Hn. left. now symmetry.
Qed.

Lemma fields_keys_are_slot_names (key : pystr) :
  In key (map (fun f => fst (fst f)) fields) -> In key slot_names.
Proof.
  unfold fields, slot_names. cbn [map fst In]. intuition.
Qed.

(** X12: the renderer reads only the number, the title and the thirteen
    slot names: an entry stored in the card under any other key changes
    nothing in the rendered block. *)
Theorem format_card_as_text_ignores_other_keys :
  forall (repr_list : list pystr -> pystr) (c : card) (key : pystr)
         (v : slot),
    ~ In key (u"number" :: u"title" :: slot_names) ->
    format_card_as_text repr_list (with_slot c key v)
    = format_card_as_text repr_list c.
Proof.
  intros repr_list c key v Hnt.
  assert (Hn : ~ In key slot_names)
    by (intros H; apply Hnt; right; right; exact H).
  assert (Hr : key <> u"reaction")
    by (intros ->; apply Hn; unfold slot_names; cbn [In]; tauto).
  assert (Hb : key <> u"borders")
    by (intros ->; apply Hn; unfold slot_names; cbn [In]; tauto).
  assert (Hc : content_lines repr_list (with_slot c key v)
               = content_lines repr_list c).
  { unfold content_lines, reaction_line, borders_line.
    rewrite flat_map_field_line_with_slot
      by (intros H; apply Hn; now apply fields_keys_are_slot_names).
    rewrite (card_get_with_slot_other c key (u"reaction") v Hr).
    rewrite (card_get_with_slot_other c key (u"borders") v Hb).
    reflexivity. }
  unfold format_card_as_text. now rewrite Hc.
Qed.

Lemma format_card_as_text_ignores_other_keys_witness :
  ~ In (u"humeur") (u"number" :: u"title" :: slot_names)
  /\ format_card_as_text repr_plain
       (with_slot (mkCard (Some 1%Z) (Some (u"X")) [])
          (u"humeur") (SStr (u"sombre")))
     = format_card_as_text repr_plain (mkCard (Some 1%Z) (Some (u"X")) []).
Proof.
  assert (H : ~ In (u"humeur") (u"number" :: u"title" :: slot_names)).
  { intros Hin.
    assert (Hb : existsb (pystr_eqb (u"humeur"))
                   (u"number" :: u"title" :: slot_names) = true).
    { apply existsb_exists. exists (u"humeur"). split; [exact Hin|].
      now apply pystr_eqb_eq. }
    vm_compute in Hb. discriminate Hb. }
  split; [exact H|].
  exact (format_card_as_text_ignores_other_keys repr_plain
           (mkCard (Some 1%Z) (Some (u"X")) []) (u"humeur")
           (SStr (u"sombre")) H).
Defined.

Lemma length_flat_map_le {A B : Type} (f : A -> list B) (l : list A) :
  (forall x, length (f x) <= 1) -> length (flat_map f l) <= length l.
Proof.
  intros Hf. induction l as [|a l IH]; [apply le_n|].
  cbn [flat_map length]. rewrite length_app. pose proof (Hf a). lia.
Qed.

Lemma length_field_line (c : card) (f : pystr * pystr * pystr) :
  length (field_line c f) <= 1.
Proof.
  destruct f as [[k label] sep]. unfold field_line.
  destruct (card_get c k) as [v|]; [|apply Nat.le_0_l].
  destruct (slot_truthy v); [|apply Nat.le_0_l]. destruct v; apply le_n.
Qed.

Lemma length_join (sep : pystr) (l : list pystr) :
  length (join sep l)
  = list_sum (map (@length N) l) + (length l - 1) * length sep.
Proof.
  induction l as [|a l IH]; [reflexivity|].
  destruct l as [|b l'].
  - simpl. lia.
  - change (join sep (a :: b :: l')) with (a ++ sep ++ join sep (b :: l')).
    rewrite !length_app, IH. cbn [map list_sum length].
    rewrite !Nat.sub_succ, !Nat.sub_0_r. cbn [Nat.mul].
    unfold list_sum. cbn [fold_right]. lia.
Qed.

Lemma list_sum_constant (l : list nat) (k : nat) :
  Forall (fun x => x = k) l -> list_sum l = length l * k.
Proof.
  induction 1 as [|x l Hx _ IH]; [reflexivity|].
  unfold list_sum in *. cbn [fold_right length]. rewrite IH, Hx. lia.
Qed.

(** X13: a rendered block has between 1 and 14 content lines, hence at most
    16 lines with its two borders, and its length in characters is
    n * (max_len + 4) + 2 * (max_len + 5) for n content lines: every line is
    followed by one line break. *)
Theorem format_card_as_text_size :
  forall (repr_list : list pystr -> pystr) (c : card),
    1 <= length (content_lines repr_list c) <= 14
    /\ length (wrapped_lines repr_list c)
       = length (content_lines repr_list c)
    /\ length (format_card_as_text repr_list c)
       = length (content_lines repr_list c)
           * (max_len (content_lines repr_list c) + 4)
         + 2 * (max_len (content_lines repr_list c) + 5).
Proof.
  intros repr_list c.
  assert (Hn : 1 <= length (content_lines repr_list c) <= 14).
  { unfold content_lines. rewrite !length_app. cbn [length].
    pose proof (length_flat_map_le (field_line c) fields
                  (length_field_line c)) as Hf.
    change (length fields) with 11 in Hf.
    assert (Hr : length (reaction_line repr_list c) <= 1).
    { unfold reaction_line. destruct (card_get c (u"reaction")) as [v|];
        [|apply Nat.le_0_l].
      destruct (slot_truthy v); [apply le_n|apply Nat.le_0_l]. }
    assert (Hb : length (borders_line c) <= 1).
    { unfold borders_line. destruct (card_get c (u"borders")) as [v|];
        [|apply Nat.le_0_l].
      destruct (slot_truthy v); [apply le_n|apply Nat.le_0_l]. }
    lia. }
  assert (Hw : length (wrapped_lines repr_list c)
               = length (content_lines repr_list c))
    by (unfold wrapped_lines; apply length_map).
  split; [exact Hn|]. split; [exact Hw|].
  rewrite format_card_as_text_unfold, length_app, length_join.
  rewrite !map_app, !list_sum_app, !length_app.
  set (m := max_len (content_lines repr_list c)).
  assert (Hb : length (border_line repr_list c) = m + 4)
    by (unfold border_line; now rewrite repeat_length).
  assert (Hs : list_sum (map (@length N) (wrapped_lines repr_list c))
               = length (wrapped_lines repr_list c) * (m + 3)).
  { rewrite (list_sum_constant _ (m + 3)); [now rewrite length_map|].
    apply Forall_map, Forall_forall. intros w Hin.
    destruct (wrapped_lines_In repr_list c w Hin) as [line [Hl ->]].
    apply length_wrap_line. now apply length_le_max_len. }
  unfold pystr in *. rewrite Hs. cbn [map length].
  unfold list_sum. cbn [fold_right]. rewrite Hb, Hw. unfold newline. cbn [length]. lia.
Qed.

Lemma join_cons_concat (sep a : pystr) (l : list pystr) :
  join sep (a :: l) = a ++ concat (map (fun x => sep ++ x) l).
Proof.
  revert a. induction l as [|b l IH]; intros a.
  - simpl. now rewrite app_nil_r.
  - change (join sep (a :: b :: l)) with (a ++ sep ++ join sep (b :: l)).
    rewrite IH. cbn [map concat]. now rewrite <- !app_assoc.
Qed.

(** X14: the text body starts with the deck title, an empty line and an
    underline of [=] as long as the title; then come the blocks of the cards
    in deck order, each preceded by an empty line. *)
Theorem save_as_txt_layout :
  forall (repr_list : list pystr -> pystr) (cards : list card),
    save_as_txt repr_list cards
    = deck_title ++ newline ++ newline
        ++ repeat 61%N (length deck_title) ++ newline
        ++ concat
             (map (fun c => newline ++ format_card_as_text repr_list c) cards)
    /\ length (repeat 61%N (length deck_title)) = length deck_title.
Proof.
  intros repr_list cards. split; [|apply repeat_length].
  unfold save_as_txt.
  generalize (repeat 61%N (length deck_title)). intros underline.
  generalize deck_title. intros t.
  cbn [app]. rewrite join_cons_concat. cbn [map concat].
  rewrite map_map, <- !app_assoc. reflexivity.
Qed.

(** ** Properties of the rich-document export *)

Lemma find_first_match {A : Type} (f : A -> bool) (l : list A) :
  match find f l with
  | Some p =>
      f p = true
      /\ exists before after,
           l = before ++ p :: after /\ Forall (fun q => f q = false) before
  | None => Forall (fun q => f q = false) l
  end.
Proof.
  induction l as [|a l IH]; [constructor|].
  cbn [find]. destruct (f a) eqn:Ea.
  - split; [exact Ea|]. exists [], l. split; [reflexivity|constructor].
  - destruct (find f l) as [p|].
    + destruct IH as [Hp [before [after [-> Hb]]]]. split; [exact Hp|].
      exists (a :: before), after. split; [reflexivity|].
      now constructor.
    + now constructor.
Qed.

(** X15: the image search tries the [symbols] directory before the working
    directory and, in each, the extensions .jpg, .png, .jpeg, .webp in this
    order; it returns the first candidate that is a file, and nothing
    exactly when no candidate is a file. *)
Theorem find_symbol_image_first_match :
  forall (is_file : image_path -> bool) (symbol : pystr),
    image_candidates symbol
    = [ (SymbolsDir, symbol ++ u".jpg"); (SymbolsDir, symbol ++ u".png");
        (SymbolsDir, symbol ++ u".jpeg"); (SymbolsDir, symbol ++ u".webp");
        (WorkingDir, symbol ++ u".jpg"); (WorkingDir, symbol ++ u".png");
        (WorkingDir, symbol ++ u".jpeg"); (WorkingDir, symbol ++ u".webp") ]
    /\ match _find_symbol_image is_file symbol with
       | Some p =>
           is_file p = true
           /\ exists before after,
                image_candidates symbol = before ++ p :: after
                /\ Forall (fun q => is_file q = false) before
       | None => Forall (fun q => is_file q = false) (image_candidates symbol)
       end.
Proof.
  intros is_file symbol. split; [reflexivity|].
  unfold _find_symbol_image. apply find_first_match.
Qed.

(** X16: the export never shows the emotions and the appearance of a card,
    nor any entry under a key other than the number, the title and the slot
    names: storing such an entry in the card leaves what is added to the
    document unchanged. *)
Theorem docx_card_ignores_emotions_and_appearance :
  forall (repr_list : list pystr -> pystr) (is_file : image_path -> bool)
         (c : card) (key : pystr) (v : slot),
    (key = u"emotions" \/ key = u"appearance"
     \/ ~ In key (u"number" :: u"title" :: slot_names)) ->
    docx_card repr_list is_file (with_slot c key v)
    = docx_card repr_list is_file c.
Proof.
  intros repr_list is_file c key v H.
  assert (Hk : forall k,
             In k [ u"symbol"; u"verbs"; u"lieu"; u"personnage"; u"objet";
                    u"motivation"; u"traits"; u"secret"; u"relation";
                    u"reaction"; u"borders" ] ->
             key <> k).
  { intros k Hin Heq. subst k. destruct H as [->|[->|Hn]].
    - cbn [In] in Hin.
      repeat (destruct Hin as [Hin|Hin];
              [vm_compute in Hin; discriminate Hin|]).
      exact Hin.
    - cbn [In] in Hin.
      repeat (destruct Hin as [Hin|Hin];
              [vm_compute in Hin; discriminate Hin|]).
      exact Hin.
    - apply Hn. right. right. unfold slot_names. cbn [In] in *. tauto. }
  unfold docx_card, docx_symbol, docx_plain, docx_joined.
  cbn [number title with_slot].
  rewrite !(card_get_with_slot_other c key _ v)
    by (apply Hk; cbn [In]; tauto).
  reflexivity.
Qed.

Lemma docx_card_ignores_emotions_and_appearance_witness :
  (u"emotions" = u"emotions" \/ u"emotions" = u"appearance"
   \/ ~ In (u"emotions") (u"number" :: u"title" :: slot_names))
  /\ docx_card repr_plain (fun _ => false)
       (with_slot (mkCard (Some 1%Z) (Some (u"X")) []) (u"emotions")
          (SList [u"joie"; u"peur"]))
     = docx_card repr_plain (fun _ => false)
         (mkCard (Some 1%Z) (Some (u"X")) []).
Proof.
  split; [left; reflexivity|].
  exact (docx_card_ignores_emotions_and_appearance repr_plain
           (fun _ => false) (mkCard (Some 1%Z) (Some (u"X")) [])
           (u"emotions") (SList [u"joie"; u"peur"]) (or_introl eq_refl)).
Defined.

Lemma docx_cards_KeyError (repr_list : list pystr -> pystr)
    (is_file : image_path -> bool) (cards : list card) (c : card) :
  In c cards ->
  (number c = None \/ title c = None) ->
  docx_cards repr_list is_file cards = Raise KeyError.
Proof.
  assert (Hone : forall c' e,
             docx_card repr_list is_file c' = Raise e -> e = KeyError).
  { intros c' e. unfold docx_card.
    destruct (number c'); [destruct (title c')|]; intros H;
      [discriminate H|injection H as <-; reflexivity
      |injection H as <-; reflexivity]. }
  assert (Hall : forall l e,
             docx_cards repr_list is_file l = Raise e -> e = KeyError).
  { induction l as [|a l IH]; intros e H; [discriminate H|].
    cbn [docx_cards] in H.
    destruct (docx_card repr_list is_file a) as [items|e1] eqn:Ea.
    - destruct (docx_cards repr_list is_file l) as [more|e2];
        [discriminate H|].
      injection H as <-. now apply IH.
    - injection H as <-. now apply (Hone a). }
  induction cards as [|a cards IH]; intros Hin Hc; [destruct Hin|].
  cbn [docx_cards]. destruct Hin as [->|Hin].
  - assert (Hr : docx_card repr_list is_file c = Raise KeyError).
    { unfold docx_card. destruct Hc as [-> | ->];
        [reflexivity|now destruct (number c)]. }
    now rewrite Hr.
  - destruct (docx_card repr_list is_file a) as [items|e] eqn:Ea.
    + now rewrite (IH Hin Hc).
    + now rewrite (Hone a e Ea).
Qed.

(** X17: the export reads the number and the title of a card with
    [card[...]]: a deck holding a card made with an empty title (or with
    index 0), whose entry [generate_card] leaves out, makes [save_as_docx]
    raise KeyError when the library is present, whereas the text renderer
    still frames such a card; without the library nothing is generated. *)
Theorem save_as_docx_needs_number_and_title :
  forall (repr_list : list pystr -> pystr) (is_file : image_path -> bool)
         (index : Z) (title0 : pystr) (cfg : config) (g g' : rng) (c : card)
         (cards : list card),
    generate_card index title0 cfg g = Ok (c, g') ->
    (index = 0%Z \/ title0 = []) ->
    In c cards ->
    save_as_docx repr_list is_file true cards = Raise KeyError
    /\ 0 < length (format_card_as_text repr_list c)
    /\ exists message,
         save_as_docx repr_list is_file false cards
         = Ok (NotGenerated message).
Proof.
  intros repr_list is_file index title0 cfg g g' c cards Hgen Hbad Hin.
  destruct (generate_card_shape index title0 cfg g g' c Hgen)
    as [_ [_ [_ [Hn Ht]]]].
  assert (Hc : number c = None \/ title c = None).
  { destruct Hbad as [-> | ->]; [left|right]; assumption. }
  split; [|split].
  - unfold save_as_docx. cbn [negb].
    now rewrite (docx_cards_KeyError repr_list is_file cards c Hin Hc).
  - rewrite format_card_as_text_unfold, length_app. simpl. lia.
  - eexists. reflexivity.
Qed.

Lemma save_as_docx_needs_number_and_title_witness :
  exists c g',
    generate_card 1 [] required_only_config (tape []) = Ok (c, g')
    /\ save_as_docx repr_plain (fun _ => false) true [c] = Raise KeyError
    /\ 0 < length (format_card_as_text repr_plain c)
    /\ exists message,
         save_as_docx repr_plain (fun _ => false) false [c]
         = Ok (NotGenerated message).
Proof.
  destruct (generate_card 1 [] required_only_config (tape []))
    as [[c g']|e] eqn:E; [|vm_compute in E; discriminate E].
  exists c, g'. split; [reflexivity|].
  exact (save_as_docx_needs_number_and_title repr_plain (fun _ => false) 1 []
           required_only_config (tape []) g' c [c] E (or_intror eq_refl)
           (or_introl eq_refl)).
Defined.

(** ** Pools of one entry *)

Lemma bind_step {A B : Type} (m : M A) (k : A -> M B) (g g1 : rng) (a : A) :
  m g = Ok (a, g1) -> bind m k g = k a g1.
Proof. intros H. unfold bind. now rewrite H. Qed.

Lemma singleton_one (cfg : config) (key x : pystr) (g : rng) :
  dict_get cfg key = Some (EList [x]) ->
  _get_random_field_value cfg key 1 g = Ok (SStr x, advance g).
Proof.
  intros H. rewrite (field_value_one cfg key [x] g H) by discriminate.
  now rewrite pick_singleton.
Qed.

Lemma map_pick_singleton (x : pystr) (g : rng) (c : nat) :
  forall start,
    map (fun i => pick [x] [] (g i)) (seq start c) = repeat x c.
Proof.
  induction c as [|c IH]; intros start; [reflexivity|].
  cbn [seq map repeat]. now rewrite pick_singleton, IH.
Qed.

Lemma singleton_many (cfg : config) (key x : pystr) (c : nat) (g : rng) :
  dict_get cfg key = Some (EList [x]) ->
  1 < c ->
  _get_random_field_value cfg key c g = Ok (SList (repeat x c), drop c g).
Proof.
  intros H Hc.
  rewrite (field_value_many cfg key [x] c g H) by (discriminate || lia).
  unfold bind.
  rewrite (pick_multiple_above [x] c g) by (discriminate || exact Hc).
  unfold ret. now rewrite map_pick_singleton.
Qed.

(** X18: when each of the thirteen pools holds exactly one entry, the card
    does not depend on the random source: single slots hold the entry, the
    verbs and traits slots three copies of it, the emotions slot two, and
    the borders slot the entry as a string (the count being 1); entries that
    are empty strings are left out. *)
Theorem generate_card_singleton_pools :
  forall (cfg : config) (index : Z) (title0 : pystr) (g : rng)
         (symbol verb lieu personnage objet emotion appearance motivation
          trait secret reaction relation border : pystr),
    dict_get cfg (u"symbols") = Some (EList [symbol]) ->
    dict_get cfg (u"table_verbes") = Some (EList [verb]) ->
    dict_get cfg (u"lieux") = Some (EList [lieu]) ->
    dict_get cfg (u"personnages") = Some (EList [personnage]) ->
    dict_get cfg (u"objets") = Some (EList [objet]) ->
    dict_get cfg (u"emotions") = Some (EList [emotion]) ->
    dict_get cfg (u"appearances") = Some (EList [appearance]) ->
    dict_get cfg (u"motivations") = Some (EList [motivation]) ->
    dict_get cfg (u"traits") = Some (EList [trait]) ->
    dict_get cfg (u"sombres_secrets") = Some (EList [secret]) ->
    dict_get cfg (u"reactions_amical_hostile") = Some (EList [reaction]) ->
    dict_get cfg (u"relations_pj_pnj") = Some (EList [relation]) ->
    dict_get cfg (u"borders") = Some (EList [border]) ->
    exists g',
      generate_card index title0 cfg g
      = Ok ({| number := if (index =? 0)%Z then None else Some index;
               title := match title0 with [] => None | _ => Some title0 end;
               slots :=
                 filter slot_kept
                   [ (u"symbol", SStr symbol);
                     (u"verbs", SList [verb; verb; verb]);
                     (u"lieu", SStr lieu);
                     (u"personnage", SStr personnage);
                     (u"objet", SStr objet);
                     (u"emotions", SList [emotion; emotion]);
                     (u"appearance", SStr appearance);
                     (u"motivation", SStr motivation);
                     (u"traits", SList [trait; trait; trait]);
                     (u"secret", SStr secret);
                     (u"reaction", SStr reaction);
                     (u"relation", SStr relation);
                     (u"borders", SStr border) ] |}, g').
Proof.
  intros cfg index title0 g symbol verb lieu personnage objet emotion
         appearance motivation trait secret reaction relation border
         H1 H2 H3 H4 H5 H6 H7 H8 H9 H10 H11 H12 H13.
  assert (L2 : 1 < 2) by lia. assert (L3 : 1 < 3) by lia.
  unfold generate_card.
  rewrite (bind_step _ _ g _ _ (singleton_one cfg _ _ g H1)).
  rewrite (bind_step _ _ _ _ _ (singleton_many cfg _ _ 3 _ H2 L3)).
  rewrite (bind_step _ _ _ _ _ (singleton_one cfg _ _ _ H3)).
  rewrite (bind_step _ _ _ _ _ (singleton_one cfg _ _ _ H4)).
  rewrite (bind_step _ _ _ _ _ (singleton_one cfg _ _ _ H5)).
  rewrite (bind_step _ _ _ _ _ (singleton_many cfg _ _ 2 _ H6 L2)).
  rewrite (bind_step _ _ _ _ _ (singleton_one cfg _ _ _ H7)).
  rewrite (bind_step _ _ _ _ _ (singleton_one cfg _ _ _ H8)).
  rewrite (bind_step _ _ _ _ _ (singleton_many cfg _ _ 3 _ H9 L3)).
  rewrite (bind_step _ _ _ _ _ (singleton_one cfg _ _ _ H10)).
  rewrite (bind_step _ _ _ _ _ (singleton_one cfg _ _ _ H11)).
  rewrite (bind_step _ _ _ _ _ (singleton_one cfg _ _ _ H12)).
  unfold borders_count. rewrite H13. cbn [entry_len length Nat.min lift].
  unfold bind at 1. unfold ret at 1.
  rewrite (bind_step _ _ _ _ _ (singleton_one cfg _ _ _ H13)).
  unfold ret. eexists. reflexivity.
Qed.

Lemma generate_card_singleton_pools_witness :
  exists g',
    generate_card 1 (u"Le Fou") singleton_config (tape [4; 7; 1]%N)
    = Ok ({| number := Some 1%Z;
             title := Some (u"Le Fou");
             slots :=
               [ (u"symbol", SStr (u"Lune"));
                 (u"verbs", SList [u"chercher"; u"chercher"; u"chercher"]);
                 (u"lieu", SStr (u"Tour"));
                 (u"personnage", SStr (u"Mage"));
                 (u"objet", SStr (u"Anneau"));
                 (u"emotions", SList [u"joie"; u"joie"]);
                 (u"appearance", SStr (u"pâle"));
                 (u"motivation", SStr (u"Vengeance"));
                 (u"traits", SList [u"Brave"; u"Brave"; u"Brave"]);
                 (u"secret", SStr (u"Parjure"));
                 (u"reaction", SStr (u"Amical"));
                 (u"relation", SStr (u"Rival"));
                 (u"borders", SStr (u"Feu")) ] |}, g').
Proof.
  exact (generate_card_singleton_pools singleton_config 1 (u"Le Fou")
           (tape [4; 7; 1]%N) (u"Lune") (u"chercher") (u"Tour") (u"Mage")
           (u"Anneau") (u"joie") (u"pâle") (u"Vengeance") (u"Brave")
           (u"Parjure") (u"Amical") (u"Rival") (u"Feu")
           eq_refl eq_refl eq_refl eq_refl eq_refl eq_refl eq_refl eq_refl
           eq_refl eq_refl eq_refl eq_refl eq_refl).
Defined.

(** ** The optional pools *)

Lemma optional_pool_not_required (k : pystr) :
  In k [u"emotions"; u"appearances"; u"borders"] -> ~ In k required_keys.
Proof.
  intros Hk Hreq.
  assert (Hb : existsb (pystr_eqb k) required_keys = true).
  { apply existsb_exists. exists k. split; [exact Hreq|].
    now apply pystr_eqb_eq. }
  destruct Hk as [<-|[<-|[<-|[]]]]; vm_compute in Hb; discriminate Hb.
Qed.

Lemma dict_get_cons_other (cfg : config) (k k' : pystr) (e : entry) :
  k <> k' -> dict_get ((k, e) :: cfg) k' = dict_get cfg k'.
Proof.
  intros Hne. cbn [dict_get].
  destruct (pystr_eqb k k') eqn:E; [|reflexivity].
  apply pystr_eqb_eq in E. contradiction.
Qed.

(** The check does not look at a key outside the required ones. *)
Lemma check_ignores_binding (cfg : config) (k : pystr) (e : entry) :
  ~ In k required_keys ->
  check_critical_lists ((k, e) :: cfg) = check_critical_lists cfg.
Proof.
  intros Hn.
  assert (Hget : forall k', In k' required_keys ->
                   dict_get ((k, e) :: cfg) k' = dict_get cfg k').
  { intros k' Hk'. apply dict_get_cons_other. intros ->. contradiction. }
  assert (Hm : missing_keys ((k, e) :: cfg) = missing_keys cfg).
  { unfold missing_keys. apply filter_ext_in. intros k' Hk'.
    unfold key_missing. now rewrite (Hget k' Hk'). }
  assert (He : empty_keys ((k, e) :: cfg) = empty_keys cfg).
  { unfold empty_keys. apply filter_ext_in. intros k' Hk'.
    unfold key_empty. now rewrite (Hget k' Hk'). }
  unfold check_critical_lists. now rewrite Hm, He.
Qed.

(** The steps of [generate_card] that fill the emotions and appearance
    slots. *)
Lemma generate_card_emotions_appearance (index : Z) (title0 : pystr)
    (cfg : config) (g g' : rng) (c : card) :
  generate_card index title0 cfg g = Ok (c, g') ->
  exists ve ge ge' va ga ga',
    _get_random_field_value cfg (u"emotions") 2 ge = Ok (ve, ge')
    /\ card_get c (u"emotions") = (if slot_truthy ve then Some ve else None)
    /\ _get_random_field_value cfg (u"appearances") 1 ga = Ok (va, ga')
    /\ card_get c (u"appearance")
       = (if slot_truthy va then Some va else None).
Proof.
  unfold generate_card. intros H.
  do 5 (apply bind_Ok in H; destruct H as (? & ? & _ & H)).
  apply bind_Ok in H. destruct H as (ve & ge' & He & H).
  apply bind_Ok in H. destruct H as (va & ga' & Ha & H).
  do 7 (apply bind_Ok in H; destruct H as (? & ? & _ & H)).
  match type of H with
  | context [filter slot_kept ?l] => set (kvs := l) in H
  end.
  apply Ok_pair_inj in H. destruct H as [<- _].
  do 6 eexists. split; [exact He|]. split; [|split; [exact Ha|]].
  - unfold card_get. cbn [slots].
    rewrite dict_get_filter by exact slot_keys_NoDup. unfold kvs.
    match goal with
    | |- context [dict_get ?l ?k] =>
        let v := eval vm_compute in (dict_get l k) in
        change (dict_get l k) with v
    end.
    reflexivity.
  - unfold card_get. cbn [slots].
    rewrite dict_get_filter by exact slot_keys_NoDup. unfold kvs.
    match goal with
    | |- context [dict_get ?l ?k] =>
        let v := eval vm_compute in (dict_get l k) in
        change (dict_get l k) with v
    end.
    reflexivity.
Qed.

(** An optional pool that is absent or empty leaves its slot out. *)
Lemma optional_slot_left_out (pool slot_name : pystr) (index : Z)
    (title0 : pystr) (cfg : config) (g g' : rng) (c : card) :
  In (pool, slot_name) optional_pools ->
  (dict_get cfg pool = None \/ dict_get cfg pool = Some (EList [])) ->
  generate_card index title0 cfg g = Ok (c, g') ->
  card_get c slot_name = None.
Proof.
  intros Hin Hpool Hgen.
  destruct (generate_card_emotions_appearance index title0 cfg g g' c Hgen)
    as (ve & ge & ge' & va & ga & ga' & He & Hse & Ha & Hsa).
  destruct (generate_card_borders index title0 cfg g g' c Hgen)
    as (count & gb & vb & _ & Hb & Hsb).
  unfold optional_pools in Hin. cbn [In] in Hin.
  destruct Hin as [E|[E|[E|[]]]]; injection E as <- <-.
  - now rewrite (field_value_falsy cfg _ 2 ge ve ge' Hpool He) in Hse.
  - now rewrite (field_value_falsy cfg _ 1 ga va ga' Hpool Ha) in Hsa.
  - now rewrite (field_value_falsy cfg _ count gb vb g' Hpool Hb) in Hsb.
Qed.

Lemma generate_cards_each (indices : list nat) :
  forall (title_pool : list pystr) (cfg : config) (g g' : rng)
         (cards : list card),
    generate_cards indices title_pool cfg g = Ok (cards, g') ->
    Forall
      (fun c =>
         exists index title0 g0 g1,
           generate_card index title0 cfg g0 = Ok (c, g1))
      cards.
Proof.
  induction indices as [|i indices IH]; intros title_pool cfg g g' cards H.
  - cbn [generate_cards] in H. apply Ok_pair_inj in H.
    destruct H as [<- _]. constructor.
  - cbn [generate_cards] in H.
    destruct (nth_error title_pool (i - 1)) as [t|]; [|discriminate H].
    apply bind_Ok in H. destruct H as (c & g1 & Hc & H).
    apply bind_Ok in H. destruct H as (rest & g2 & Hrest & H).
    apply Ok_pair_inj in H. destruct H as [<- _].
    constructor; [eauto|]. exact (IH title_pool cfg g1 g2 rest Hrest).
Qed.

Lemma main_Completed_cards (repr_list : list pystr -> pystr) (cfg : config)
    (stdin : list answer) (g : rng) (printed : list pystr)
    (cards : list card) (txt : pystr) :
  main repr_list (Ok cfg) stdin g = Completed printed cards txt ->
  check_critical_lists cfg = Ok tt
  /\ Forall
       (fun c =>
          exists index title0 g0 g1,
            generate_card index title0 cfg g0 = Ok (c, g1))
       cards.
Proof.
  intros H. unfold main in H.
  destruct (check_critical_lists cfg) as [[]|e];
    [|now apply handle_not_Completed in H].
  destruct (default_card_count cfg) as [dc|e];
    [|now apply handle_not_Completed in H].
  destruct (_prompt_for_card_count dc stdin) as [[n|e] pr];
    [|now apply handle_not_Completed in H].
  destruct (title_distribution_items cfg) as [items|e];
    [|now apply handle_not_Completed in H].
  destruct (build_title_pool items n g) as [[title_pool g1]|e];
    [|now apply handle_not_Completed in H].
  destruct (generate_cards (seq 1 (Z.to_nat n)) title_pool cfg g1)
    as [[cs g2]|e] eqn:Hc; [|discriminate H].
  injection H as <- <- <-. split; [reflexivity|].
  exact (generate_cards_each _ title_pool cfg g1 g2 cs Hc).
Qed.

(** C1 (amended): the check passes exactly when [title_distribution] and the
    ten pools symbols, table_verbes, lieux, personnages, objets, motivations,
    traits, sombres_secrets, reactions_amical_hostile and relations_pj_pnj
    are present and non-empty; when it fails the run exits with status 1 and
    one report before any card is made, so a run that completes had all of
    them.  The pools emotions, appearances and borders are not checked: they
    are not among the required keys, and the outcome of the check is the
    same whatever the configuration binds to them.  When one of them is
    absent or empty the run proceeds all the same: every card that
    [generate_card] returns, and so every card of a completed run, lacks the
    corresponding slot, and on a configuration whose pools are arrays
    [generate_card] does return such a card. *)
Theorem check_guards_required_pools :
  forall (repr_list : list pystr -> pystr) (cfg : config)
         (stdin : list answer) (g : rng),
    (check_critical_lists cfg = Ok tt
     <-> (forall k,
             In k required_keys ->
             exists e, dict_get cfg k = Some e /\ entry_truthy e = true))
    /\ (forall e,
           check_critical_lists cfg = Raise e ->
           exists report,
             e = ValueError report
             /\ main repr_list (Ok cfg) stdin g
                = Exited 1 [launch_failure report])
    /\ (forall printed cards txt,
           main repr_list (Ok cfg) stdin g = Completed printed cards txt ->
           forall k,
             In k required_keys ->
             exists e, dict_get cfg k = Some e /\ entry_truthy e = true)
    /\ (forall k,
           In k [u"emotions"; u"appearances"; u"borders"] ->
           ~ In k required_keys)
    /\ (forall k e,
           In k [u"emotions"; u"appearances"; u"borders"] ->
           check_critical_lists ((k, e) :: cfg) = check_critical_lists cfg)
    /\ (forall pool slot_name,
           In (pool, slot_name) optional_pools ->
           (dict_get cfg pool = None \/ dict_get cfg pool = Some (EList [])) ->
           (forall index title0 g0 c g',
               generate_card index title0 cfg g0 = Ok (c, g') ->
               card_get c slot_name = None)
           /\ (forall printed cards txt,
                  main repr_list (Ok cfg) stdin g
                  = Completed printed cards txt ->
                  Forall (fun c => card_get c slot_name = None) cards)
           /\ (pools_are_lists cfg ->
               forall index title0 g0,
               exists c g',
                 generate_card index title0 cfg g0 = Ok (c, g')
                 /\ card_get c slot_name = None)).
Proof.
  intros repr_list cfg stdin g.
  split; [apply check_critical_lists_Ok|].
  split; [|split; [|split; [|split]]].
  - intros e He.
    destruct (check_critical_lists_Raise cfg e He) as [-> _].
    eexists. split; [reflexivity|]. now apply main_check_fails.
  - intros printed cards txt Hmain.
    apply check_critical_lists_Ok.
    exact (proj1 (main_Completed_cards repr_list cfg stdin g printed cards txt
                    Hmain)).
  - exact optional_pool_not_required.
  - intros k e Hk. apply check_ignores_binding.
    now apply optional_pool_not_required.
  - intros pool slot_name Hin Hpool. split; [|split].
    + intros index title0 g0 c g' Hgen.
      exact (optional_slot_left_out pool slot_name index title0 cfg g0 g' c
               Hin Hpool Hgen).
    + intros printed cards txt Hmain.
      destruct (main_Completed_cards repr_list cfg stdin g printed cards txt
                  Hmain) as [_ Hall].
      apply Forall_forall. intros c Hc.
      rewrite Forall_forall in Hall.
      destruct (Hall c Hc) as (index & title0 & g0 & g1 & Hgen).
      exact (optional_slot_left_out pool slot_name index title0 cfg g0 g1 c
               Hin Hpool Hgen).
    + intros Hwf index title0 g0.
      destruct (generate_card_total index title0 cfg g0 Hwf)
        as [[c g'] Hgen].
      exists c, g'. split; [exact Hgen|].
      exact (optional_slot_left_out pool slot_name index title0 cfg g0 g' c
               Hin Hpool Hgen).
Qed.
